(** * Workout_App: the client-side logic, embedded and verified

    The development follows the JavaScript sources:
    - [services/api.js]             the fetch wrapper [fetchApi] and its verbs;
    - [services/videoService.js], [services/exerciseService.js] and
      [services/workoutService.js]  the endpoint tables and
      [createExerciseSequence];
    - [context/WorkoutContext.jsx]  [workoutReducer] and the wrapper
      [completeCurrentExercise].

    Conventions of the embedding.
    - A JavaScript value is a [JsVal]; an object is a finite map from
      property names to values ([gmap string JsVal]), so object spread is
      map union and a property write is an insert.
    - Numbers are the integer-valued ones ([Z]); floating point is not
      modelled.
    - Strings are sequences of 8-bit characters; [toLowerCase] and the
      regular-expression class [\s] are modelled on the ASCII range,
      characters above it are kept as they are and are not whitespace.
    - A computation that may throw returns a [JsResult]; the thrown value
      is an error object (its properties). *)

From stdpp Require Import gmap strings list fin_maps pretty.
From Stdlib Require Import ZArith Ascii.

Set Warnings "-register-all".

Open Scope string_scope.
Open Scope Z_scope.

(* ===================================================================== *)
(** ** JavaScript values                                                  *)
(* ===================================================================== *)

Module Js.

Inductive JsVal : Type :=
| VUndefined
| VNull
| VBool (b : bool)
| VNum (n : Z)
| VStr (s : string)
| VArr (l : list JsVal)
| VObj (o : gmap string JsVal).

(** ToBoolean: [undefined], [null], [false], [0] and [''] are falsy, every
    array and object is truthy. *)
Definition truthy (v : JsVal) : bool :=
  match v with
  | VUndefined | VNull => false
  | VBool b => b
  | VNum n => negb (n =? 0)
  | VStr s => negb (String.eqb s "")
  | VArr _ | VObj _ => true
  end.

(** [v == null]: the value is [null] or [undefined]. *)
Definition nullish (v : JsVal) : bool :=
  match v with VUndefined | VNull => true | _ => false end.

(** [a || b] *)
Definition js_or (a b : JsVal) : JsVal := if truthy a then a else b.

(** [Array.isArray(v)] *)
Definition isArray (v : JsVal) : bool :=
  match v with VArr _ => true | _ => false end.

(** [typeof v === 'object'] ([null] included, as in JavaScript). *)
Definition typeof_object (v : JsVal) : bool :=
  match v with VNull | VArr _ | VObj _ => true | _ => false end.

(** The elements of an array value. *)
Definition elements_of (v : JsVal) : list JsVal :=
  match v with VArr l => l | _ => [] end.

(** The own enumerable properties of a value: what [{...v}] copies.  An
    object gives its properties, an array its elements and a string its
    characters under their indices; [undefined], [null], numbers and
    booleans give nothing. *)
Definition spread (v : JsVal) : gmap string JsVal :=
  match v with
  | VObj o => o
  | VArr l => list_to_map (imap (fun i x => (pretty i, x)) l)
  | VStr s =>
      list_to_map
        (imap (fun i c => (pretty i, VStr (String c EmptyString)))
              (String.list_ascii_of_string s))
  | _ => ∅
  end.

(** ToString, with integers in decimal notation (as JavaScript prints them
    below 10^21). *)
Fixpoint js_toString (v : JsVal) : string :=
  match v with
  | VUndefined => "undefined"
  | VNull => "null"
  | VBool true => "true"
  | VBool false => "false"
  | VNum n => pretty n
  | VStr s => s
  | VArr l =>
      (fix join (l : list JsVal) : string :=
         match l with
         | [] => ""
         | x :: l' =>
             let sx := match x with
                       | VUndefined | VNull => ""
                       | _ => js_toString x
                       end in
             match l' with
             | [] => sx
             | _ :: _ => sx +:+ "," +:+ join l'
             end
         end) l
  | VObj _ => "[object Object]"
  end.

(** A result of a computation that may throw. *)
Inductive JsResult (A : Type) : Type :=
| Ok (a : A)
| Thrown (e : gmap string JsVal).
Arguments Ok {A} a.
Arguments Thrown {A} e.

Definition bind {A B} (r : JsResult A) (f : A -> JsResult B) : JsResult B :=
  match r with
  | Ok a => f a
  | Thrown e => Thrown e
  end.

Notation "x <- r ;; k" := (bind r (fun x => k))
  (at level 100, r at next level, right associativity).

Definition is_thrown {A} (r : JsResult A) : bool :=
  match r with Thrown _ => true | Ok _ => false end.

(** An error object: [name] is what the prototype chain answers, [message]
    is the own property the constructor sets. *)
Definition mkError (name message : string) : gmap string JsVal :=
  {[ "name" := VStr name; "message" := VStr message ]}.

Definition TypeError (message : string) : gmap string JsVal :=
  mkError "TypeError" message.

(** [v.k] on a value that is neither [undefined] nor [null]: an object
    answers with its property, or [undefined]; the primitives and arrays
    have none of the properties the sources read
    ([exercises], [name], [sets], [reps], [is_timed], [error]). *)
Definition prop (v : JsVal) (k : string) : JsVal :=
  match v with
  | VObj o => default VUndefined (o !! k)
  | _ => VUndefined
  end.

(** [v.k] in general: reading a property of [undefined] or [null] throws. *)
Definition js_get (v : JsVal) (k : string) : JsResult JsVal :=
  match v with
  | VUndefined =>
      Thrown (TypeError ("Cannot read properties of undefined (reading '" +:+ k +:+ "')"))
  | VNull =>
      Thrown (TypeError ("Cannot read properties of null (reading '" +:+ k +:+ "')"))
  | _ => Ok (prop v k)
  end.

(** [Array.prototype.map] with a callback that may throw: the first throw
    aborts the traversal. *)
Fixpoint array_map {A B} (f : A -> JsResult B) (l : list A) : JsResult (list B) :=
  match l with
  | [] => Ok []
  | x :: l' =>
      y <- f x ;;
      ys <- array_map f l' ;;
      Ok (y :: ys)
  end.

End Js.
Import Js.

(* ===================================================================== *)
(** ** String primitives                                                  *)
(* ===================================================================== *)

Module JsString.

Definition is_upper (c : ascii) : bool :=
  let n := nat_of_ascii c in (65 <=? n)%nat && (n <=? 90)%nat.

Definition lower_char (c : ascii) : ascii :=
  if is_upper c then ascii_of_nat (nat_of_ascii c + 32) else c.

(** [s.toLowerCase()] *)
Fixpoint toLowerCase (s : string) : string :=
  match s with
  | EmptyString => EmptyString
  | String c s' => String (lower_char c) (toLowerCase s')
  end.

(** The class [\s]: tab, line feed, vertical tab, form feed, carriage
    return, space. *)
Definition is_space (c : ascii) : bool :=
  let n := nat_of_ascii c in ((9 <=? n)%nat && (n <=? 13)%nat) || (n =? 32)%nat.

(** [s.replace(/\s+/g, '_')]: scanning from the left, each maximal run of
    whitespace is replaced by one underscore.  [in_run] says that the
    previous character was whitespace, so the run has its underscore. *)
Fixpoint replace_runs (in_run : bool) (s : string) : string :=
  match s with
  | EmptyString => EmptyString
  | String c s' =>
      if is_space c
      then (if in_run then replace_runs true s'
            else String "_" (replace_runs true s'))
      else String c (replace_runs false s')
  end.

Definition replace_whitespace (s : string) : string := replace_runs false s.

(** [s.startsWith(p)] *)
Definition startsWith (p s : string) : bool := String.prefix p s.

(** [s.includes(sub)] *)
Fixpoint includes (sub s : string) : bool :=
  String.prefix sub s ||
  match s with
  | EmptyString => false
  | String _ s' => includes sub s'
  end.

(** Every character of a string satisfies [P]. *)
Fixpoint all_chars (P : ascii -> bool) (s : string) : bool :=
  match s with
  | EmptyString => true
  | String c s' => P c && all_chars P s'
  end.

End JsString.
Import JsString.

(* ===================================================================== *)
(** ** services/workoutService.js: [createExerciseSequence]              *)
(* ===================================================================== *)

Module WorkoutService.

(** [name.toLowerCase()]: only a string has the method. *)
Definition call_toLowerCase (name : JsVal) : JsResult string :=
  match name with
  | VStr s => Ok (toLowerCase s)
  | VUndefined =>
      Thrown (TypeError "Cannot read properties of undefined (reading 'toLowerCase')")
  | VNull =>
      Thrown (TypeError "Cannot read properties of null (reading 'toLowerCase')")
  | _ => Thrown (TypeError "exercise.name.toLowerCase is not a function")
  end.

(** [exercise.name.toLowerCase().replace(/\s+/g, '_')] on a name that is a
    string. *)
Definition exercise_id (name : string) : string :=
  replace_whitespace (toLowerCase name).

(** The object literal of the callback, once [exercise.name] has been read
    and lowered (both may throw, and are evaluated first). *)
Definition item_literal (exercise name : JsVal) (lowered : string)
  : gmap string JsVal :=
  let reps := prop exercise "reps" in
  let is_timed := prop exercise "is_timed" in
  {[ "id" := VStr (replace_whitespace lowered);
     "name" := name;
     "sets" := js_or (prop exercise "sets") (VNum 1);
     "reps" := js_or reps (VNum 10);
     "is_timed" := js_or is_timed (VBool false);
     "target_duration" := (if truthy is_timed then reps else VNull);
     "target_reps" := (if negb (truthy is_timed) then reps else VNull);
     "completed" := VBool false ]}.

(** The callback of [workoutDay.exercises.map(...)]. *)
Definition sequence_item (exercise : JsVal) : JsResult (gmap string JsVal) :=
  name <- js_get exercise "name" ;;
  lowered <- call_toLowerCase name ;;
  Ok (item_literal exercise name lowered).

Definition createExerciseSequence (workoutDay : JsVal)
  : JsResult (list (gmap string JsVal)) :=
  if negb (truthy workoutDay)
     || negb (truthy (prop workoutDay "exercises"))
     || negb (isArray (prop workoutDay "exercises"))
  then Ok []
  else array_map sequence_item (elements_of (prop workoutDay "exercises")).

End WorkoutService.
Import WorkoutService.

(* ===================================================================== *)
(** ** services/api.js: [fetchApi] and the verb wrappers                 *)
(* ===================================================================== *)

Module Api.

(** [process.env.REACT_APP_API_URL || '/api']; the environment variable is
    a string or is unset. *)
Definition API_BASE_URL (REACT_APP_API_URL : option string) : string :=
  match REACT_APP_API_URL with
  | Some s => if String.eqb s "" then "/api" else s
  | None => "/api"
  end.

(** What the code reads of a [Response]: the flags, the header list, and
    what awaiting [response.json()] and [response.text()] gives.  [json]
    rejects when the body is not JSON. *)
Record Response : Type := mkResponse {
  ok : bool;
  status : Z;
  statusText : string;
  headers : list (string * string);
  json : JsResult JsVal;
  text : string
}.

(** [headers.get(name)]: header names compare without case, the values of
    a repeated header are joined with a comma and a space, and a header
    that is not there gives [null] (here [None]). *)
Definition headers_get (h : list (string * string)) (name : string) : option string :=
  match filter (fun kv => toLowerCase kv.1 = toLowerCase name) h with
  | [] => None
  | kv :: rest => Some (fold_left (fun acc kv' => acc +:+ ", " +:+ kv'.2) rest kv.2)
  end.

(** Programs over the one effect of the module, the call of [fetch].  The
    continuation receives the settled promise: a response, or the value
    the promise was rejected with. *)
Inductive Prog (A : Type) : Type :=
| Done (r : JsResult A)
| Fetch (url : string) (config : gmap string JsVal) (k : JsResult Response -> Prog A).
Arguments Done {A} r.
Arguments Fetch {A} url config k.

(** [try { p } catch (error) { h error }] *)
Fixpoint try_catch {A} (p : Prog A) (h : gmap string JsVal -> Prog A) : Prog A :=
  match p with
  | Done (Ok a) => Done (Ok a)
  | Done (Thrown e) => h e
  | Fetch u c k => Fetch u c (fun r => try_catch (k r) h)
  end.

(** [const response = await fetch(url, config); k response] *)
Definition await_fetch {A} (url : string) (config : gmap string JsVal)
    (k : Response -> Prog A) : Prog A :=
  Fetch url config (fun r =>
    match r with
    | Ok response => k response
    | Thrown e => Done (Thrown e)
    end).

(** The network: what the [n]-th call of [fetch] settles to. *)
Definition Network : Type := nat -> string -> gmap string JsVal -> JsResult Response.

(** Running a program against a network, from call number [n] on: the log
    of the requests made, in order, and the result. *)
Fixpoint run {A} (net : Network) (n : nat) (p : Prog A)
  : list (string * gmap string JsVal) * JsResult A :=
  match p with
  | Done r => ([], r)
  | Fetch u c k =>
      let out := run net (S n) (k (net n u c)) in
      ((u, c) :: out.1, out.2)
  end.

Section WithHost.

(** [JSON.stringify] of the host, on the request bodies. *)
Variable JSON_stringify : JsVal -> string.

(** The environment variable [REACT_APP_API_URL]. *)
Variable REACT_APP_API_URL : option string.

(** [`${API_BASE_URL}${endpoint.startsWith('/') ? endpoint : `/${endpoint}`}`] *)
Definition request_url (endpoint : string) : string :=
  API_BASE_URL REACT_APP_API_URL
  +:+ (if startsWith "/" endpoint then endpoint else "/" +:+ endpoint).

(** [{ 'Content-Type': 'application/json', ...options.headers }] *)
Definition request_headers (options : gmap string JsVal) : gmap string JsVal :=
  spread (default VUndefined (options !! "headers"))
  ∪ {[ "Content-Type" := VStr "application/json" ]}.

(** [config]: the options with the merged headers, and the body
    serialised when it is an object. *)
Definition request_config (options : gmap string JsVal) : gmap string JsVal :=
  let config := <["headers" := VObj (request_headers options)]> options in
  let body := default VUndefined (options !! "body") in
  if truthy body && typeof_object body
  then <["body" := VStr (JSON_stringify body)]> config
  else config.

(** The object [errorData] of a response that is not ok. *)
Definition errorData (response : Response) : JsVal :=
  match json response with
  | Ok d => d
  | Thrown _ => VObj {[ "error" := VStr (statusText response) ]}
  end.

(** [new Error(message)] *)
Definition new_Error (message : JsVal) : gmap string JsVal :=
  mkError "Error" (js_toString message).

(** The error built for a response that is not ok; reading
    [errorData.error] throws when the body is the JSON value [null]. *)
Definition http_error (response : Response) : JsResult (gmap string JsVal) :=
  field <- js_get (errorData response) "error" ;;
  let error := new_Error (js_or field (VStr "API request failed")) in
  Ok (<["data" := errorData response]>
        (<["statusText" := VStr (statusText response)]>
           (<["status" := VNum (status response)]> error))).

(** The value returned for a response that is ok. *)
Definition read_body (response : Response) : JsResult JsVal :=
  if (status response =? 204)
     || bool_decide (headers_get (headers response) "content-length" = Some "0")
  then Ok VNull
  else
    match headers_get (headers response) "content-type" with
    | Some contentType =>
        if negb (String.eqb contentType "") && includes "application/json" contentType
        then json response
        else Ok (VStr (text response))
    | None => Ok (VStr (text response))
    end.

(** The body of the [try] block. *)
Definition try_block (url : string) (config : gmap string JsVal) : Prog JsVal :=
  await_fetch url config (fun response =>
    if negb (ok response)
    then match http_error response with
         | Ok error => Done (Thrown error)
         | Thrown e => Done (Thrown e)
         end
    else Done (read_body response)).

(** [{ url, ...config }] *)
Definition request_details (url : string) (config : gmap string JsVal)
  : gmap string JsVal :=
  config ∪ {[ "url" := VStr url ]}.

(** The [catch] block: [error.endpoint = endpoint;
    error.request = { url, ...config }; throw error]. *)
Definition annotate (endpoint url : string) (config error : gmap string JsVal)
  : gmap string JsVal :=
  <["request" := VObj (request_details url config)]>
    (<["endpoint" := VStr endpoint]> error).

Definition fetchApi (endpoint : string) (options : gmap string JsVal) : Prog JsVal :=
  let url := request_url endpoint in
  let config := request_config options in
  try_catch (try_block url config)
            (fun error => Done (Thrown (annotate endpoint url config error))).

(** The verb wrappers. *)
Definition get (endpoint : string) (options : gmap string JsVal) : Prog JsVal :=
  fetchApi endpoint (<["method" := VStr "GET"]> options).

Definition post (endpoint : string) (data : JsVal) (options : gmap string JsVal)
  : Prog JsVal :=
  fetchApi endpoint (<["body" := data]> (<["method" := VStr "POST"]> options)).

Definition put (endpoint : string) (data : JsVal) (options : gmap string JsVal)
  : Prog JsVal :=
  fetchApi endpoint (<["body" := data]> (<["method" := VStr "PUT"]> options)).

Definition patch (endpoint : string) (data : JsVal) (options : gmap string JsVal)
  : Prog JsVal :=
  fetchApi endpoint (<["body" := data]> (<["method" := VStr "PATCH"]> options)).

Definition del (endpoint : string) (options : gmap string JsVal) : Prog JsVal :=
  fetchApi endpoint (<["method" := VStr "DELETE"]> options).

End WithHost.

End Api.
Import Api.

(* ===================================================================== *)
(** ** services/videoService.js and services/exerciseService.js          *)
(* ===================================================================== *)

Module Services.

(** [URLSearchParams.prototype.toString]: the form-urlencoded serialiser.
    Letters, digits and [* - . _] stay, a space becomes [+], every other
    byte is percent-encoded. *)
Definition hex_digit (n : nat) : ascii :=
  if (n <? 10)%nat then ascii_of_nat (48 + n) else ascii_of_nat (55 + n).

Definition form_unreserved (c : ascii) : bool :=
  let n := nat_of_ascii c in
  ((48 <=? n)%nat && (n <=? 57)%nat) || ((65 <=? n)%nat && (n <=? 90)%nat)
  || ((97 <=? n)%nat && (n <=? 122)%nat)
  || (n =? 42)%nat || (n =? 45)%nat || (n =? 46)%nat || (n =? 95)%nat.

Fixpoint form_encode (s : string) : string :=
  match s with
  | EmptyString => EmptyString
  | String c s' =>
      let n := nat_of_ascii c in
      if form_unreserved c then String c (form_encode s')
      else if (n =? 32)%nat then String "+" (form_encode s')
      else String "%" (String (hex_digit (n / 16)) (String (hex_digit (n mod 16))
                                                          (form_encode s')))
  end.

Fixpoint URLSearchParams_toString (params : list (string * string)) : string :=
  match params with
  | [] => ""
  | (k, v) :: rest =>
      form_encode k +:+ "=" +:+ form_encode v
      +:+ match rest with
          | [] => ""
          | _ :: _ => "&" +:+ URLSearchParams_toString rest
          end
  end.

Section WithHost.

Variable JSON_stringify : JsVal -> string.
Variable REACT_APP_API_URL : option string.

Local Abbreviation get := (Api.get JSON_stringify REACT_APP_API_URL).
Local Abbreviation post := (Api.post JSON_stringify REACT_APP_API_URL).

(** *** videoService *)

(** [params = { camera_index: 0 }]: the default stands in for [undefined]. *)
Definition startVideoFeed (params : JsVal) : Prog JsVal :=
  let params := match params with
                | VUndefined => VObj {[ "camera_index" := VNum 0 ]}
                | _ => params
                end in
  post "video/start" params ∅.

Definition stopVideoFeed : Prog JsVal := post "video/stop" (VObj ∅) ∅.

Definition getVideoStatus : Prog JsVal := get "video/status" ∅.

Definition getCurrentFrame : Prog JsVal := get "video/frame" ∅.

Definition getVideoFeedUrl : string := "/api/video/feed".

(** *** exerciseService *)

Definition startExercise (params : JsVal) : Prog JsVal :=
  post "exercise/start" params ∅.

Definition stopExercise : Prog JsVal := post "exercise/stop" (VObj ∅) ∅.

Definition getExerciseData : Prog JsVal := get "exercise/data" ∅.

Definition getExerciseStats : Prog JsVal := get "exercise/stats" ∅.

Definition getExerciseHistory : Prog JsVal := get "exercise/history" ∅.

(** The query parameters [getCommonFeedback] appends, in order. *)
Definition feedback_query (params : gmap string JsVal) : list (string * string) :=
  let exercise := default VUndefined (params !! "exercise") in
  let period := default VUndefined (params !! "period") in
  (if truthy exercise then [("exercise", js_toString exercise)] else [])
  ++ (if truthy period then [("period", js_toString period)] else []).

Definition getCommonFeedback (params : gmap string JsVal) : Prog JsVal :=
  let queryString := URLSearchParams_toString (feedback_query params) in
  get ("exercise/common_feedback"
       +:+ (if negb (String.eqb queryString "") then "?" +:+ queryString else ""))
      ∅.

(** The calls of the two services, as data. *)
Inductive VideoCall : Type :=
| StartVideoFeed (params : JsVal)
| StopVideoFeed
| GetVideoStatus
| GetCurrentFrame.

Definition video_call (c : VideoCall) : Prog JsVal :=
  match c with
  | StartVideoFeed params => startVideoFeed params
  | StopVideoFeed => stopVideoFeed
  | GetVideoStatus => getVideoStatus
  | GetCurrentFrame => getCurrentFrame
  end.

Inductive ExerciseCall : Type :=
| StartExercise (params : JsVal)
| StopExercise
| GetExerciseData
| GetExerciseStats
| GetExerciseHistory
| GetCommonFeedback (params : gmap string JsVal).

Definition exercise_call (c : ExerciseCall) : Prog JsVal :=
  match c with
  | StartExercise params => startExercise params
  | StopExercise => stopExercise
  | GetExerciseData => getExerciseData
  | GetExerciseStats => getExerciseStats
  | GetExerciseHistory => getExerciseHistory
  | GetCommonFeedback params => getCommonFeedback params
  end.

End WithHost.

End Services.
Import Services.

(* ===================================================================== *)
(** ** context/WorkoutContext.jsx: the reducer                           *)
(* ===================================================================== *)

Module WorkoutContext.

(** [sessionStats]: the three counters of [initialState] are numbers; the
    other properties ([feedback], and [endTime] and [summary] once a
    session has ended) are kept as an object. *)
Record SessionStats : Type := mkSessionStats {
  completedExercises : Z;
  totalReps : Z;
  totalDuration : Z;
  otherStats : gmap string JsVal
}.

(** The payload of [UPDATE_SESSION_STATS]: the counters it overrides, and
    its other properties. *)
Record SessionStatsUpdate : Type := mkSessionStatsUpdate {
  newCompletedExercises : option Z;
  newTotalReps : option Z;
  newTotalDuration : option Z;
  newOtherStats : gmap string JsVal
}.

(** The statistics of a completed exercise: [repCount] and [duration] are
    numbers when they are there. *)
Record ExerciseStats : Type := mkExerciseStats {
  repCount : option Z;
  duration : option Z;
  otherResults : gmap string JsVal
}.

Definition set_number (k : string) (n : option Z) (o : gmap string JsVal)
  : gmap string JsVal :=
  match n with
  | Some n => <[k := VNum n]> o
  | None => o
  end.

(** The statistics as the object they are. *)
Definition stats_object (stats : ExerciseStats) : JsVal :=
  VObj (set_number "repCount" (repCount stats)
          (set_number "duration" (duration stats) (otherResults stats))).

(** [n || 0] on a number that may be absent: [undefined] and [0] are
    falsy. *)
Definition or_zero (n : option Z) : Z :=
  match n with
  | Some n => if n =? 0 then 0 else n
  | None => 0
  end.

Record State : Type := mkState {
  currentWorkout : JsVal;
  exerciseSequence : list (gmap string JsVal);
  currentExerciseIndex : Z;
  activeExercise : JsVal;
  sessionStartTime : JsVal;
  sessionStats : SessionStats;
  isLoading : JsVal;
  error : JsVal
}.

Definition initialSessionStats : SessionStats :=
  {| completedExercises := 0;
     totalReps := 0;
     totalDuration := 0;
     otherStats := {[ "feedback" := VObj ∅ ]} |}.

Definition initialState : State :=
  {| currentWorkout := VNull;
     exerciseSequence := [];
     currentExerciseIndex := -1;
     activeExercise := VNull;
     sessionStartTime := VNull;
     sessionStats := initialSessionStats;
     isLoading := VBool false;
     error := VNull |}.

(** An action: its [type] selects the constructor, the arguments are its
    payload.  [OTHER type payload] is an action whose type is none of
    [ActionTypes]. *)
Inductive Action : Type :=
| SET_CURRENT_WORKOUT (payload : JsVal)
| SET_EXERCISE_SEQUENCE (payload : list (gmap string JsVal))
| SET_CURRENT_EXERCISE (payload : Z)
| COMPLETE_EXERCISE (exerciseIndex : Z) (stats : ExerciseStats)
| START_SESSION
| END_SESSION (payload : JsVal)
| UPDATE_SESSION_STATS (payload : SessionStatsUpdate)
| SET_LOADING (payload : JsVal)
| SET_ERROR (payload : JsVal)
| RESET_STATE
| OTHER (type : string) (payload : JsVal).

Definition ActionTypes : list string :=
  [ "SET_CURRENT_WORKOUT"; "SET_EXERCISE_SEQUENCE"; "SET_CURRENT_EXERCISE";
    "COMPLETE_EXERCISE"; "START_SESSION"; "END_SESSION";
    "UPDATE_SESSION_STATS"; "SET_LOADING"; "SET_ERROR"; "RESET_STATE" ].

Definition action_type (a : Action) : string :=
  match a with
  | SET_CURRENT_WORKOUT _ => "SET_CURRENT_WORKOUT"
  | SET_EXERCISE_SEQUENCE _ => "SET_EXERCISE_SEQUENCE"
  | SET_CURRENT_EXERCISE _ => "SET_CURRENT_EXERCISE"
  | COMPLETE_EXERCISE _ _ => "COMPLETE_EXERCISE"
  | START_SESSION => "START_SESSION"
  | END_SESSION _ => "END_SESSION"
  | UPDATE_SESSION_STATS _ => "UPDATE_SESSION_STATS"
  | SET_LOADING _ => "SET_LOADING"
  | SET_ERROR _ => "SET_ERROR"
  | RESET_STATE => "RESET_STATE"
  | OTHER type _ => type
  end.

(** [sequence[i]] for a number [i]: [None] is [undefined], which is what a
    negative index and an index past the end give. *)
Definition item_at (sequence : list (gmap string JsVal)) (i : Z)
  : option (gmap string JsVal) :=
  if i <? 0 then None else sequence !! Z.to_nat i.

(** [state.exerciseSequence[i] || null]: an item is an object, so truthy. *)
Definition item_or_null (sequence : list (gmap string JsVal)) (i : Z) : JsVal :=
  match item_at sequence i with
  | Some item => VObj item
  | None => VNull
  end.

(** The updated copy of the sequence in [COMPLETE_EXERCISE]. *)
Definition complete_item (sequence : list (gmap string JsVal)) (exerciseIndex : Z)
    (stats : ExerciseStats) : list (gmap string JsVal) :=
  match item_at sequence exerciseIndex with
  | Some item =>
      <[Z.to_nat exerciseIndex :=
          <["results" := stats_object stats]> (<["completed" := VBool true]> item)]>
        sequence
  | None => sequence
  end.

(** [{ ...sessionStats, ...payload }] *)
Definition merge_stats (s : SessionStats) (u : SessionStatsUpdate) : SessionStats :=
  {| completedExercises := default (completedExercises s) (newCompletedExercises u);
     totalReps := default (totalReps s) (newTotalReps u);
     totalDuration := default (totalDuration s) (newTotalDuration u);
     otherStats := newOtherStats u ∪ otherStats s |}.

(** The reducer.  [now] is what [new Date().toISOString()] reads. *)
Definition workoutReducer (now : string) (state : State) (action : Action) : State :=
  match action with
  | SET_CURRENT_WORKOUT payload =>
      {| currentWorkout := payload;
         exerciseSequence := exerciseSequence state;
         currentExerciseIndex := currentExerciseIndex state;
         activeExercise := activeExercise state;
         sessionStartTime := sessionStartTime state;
         sessionStats := sessionStats state;
         isLoading := isLoading state;
         error := VNull |}
  | SET_EXERCISE_SEQUENCE payload =>
      {| currentWorkout := currentWorkout state;
         exerciseSequence := payload;
         currentExerciseIndex := -1;
         activeExercise := VNull;
         sessionStartTime := sessionStartTime state;
         sessionStats := sessionStats state;
         isLoading := isLoading state;
         error := error state |}
  | SET_CURRENT_EXERCISE payload =>
      {| currentWorkout := currentWorkout state;
         exerciseSequence := exerciseSequence state;
         currentExerciseIndex := payload;
         activeExercise := item_or_null (exerciseSequence state) payload;
         sessionStartTime := sessionStartTime state;
         sessionStats := sessionStats state;
         isLoading := isLoading state;
         error := error state |}
  | COMPLETE_EXERCISE exerciseIndex stats =>
      let updatedSequence := complete_item (exerciseSequence state) exerciseIndex stats in
      {| currentWorkout := currentWorkout state;
         exerciseSequence := updatedSequence;
         currentExerciseIndex := currentExerciseIndex state;
         activeExercise := activeExercise state;
         sessionStartTime := sessionStartTime state;
         sessionStats :=
           {| completedExercises := completedExercises (sessionStats state) + 1;
              totalReps := totalReps (sessionStats state) + or_zero (repCount stats);
              totalDuration := totalDuration (sessionStats state) + or_zero (duration stats);
              otherStats := otherStats (sessionStats state) |};
         isLoading := isLoading state;
         error := error state |}
  | START_SESSION =>
      {| currentWorkout := currentWorkout state;
         exerciseSequence := exerciseSequence state;
         currentExerciseIndex := currentExerciseIndex state;
         activeExercise := activeExercise state;
         sessionStartTime := VStr now;
         sessionStats := initialSessionStats;
         isLoading := isLoading state;
         error := error state |}
  | END_SESSION payload =>
      {| currentWorkout := currentWorkout state;
         exerciseSequence := exerciseSequence state;
         currentExerciseIndex := currentExerciseIndex state;
         activeExercise := VNull;
         sessionStartTime := sessionStartTime state;
         sessionStats :=
           {| completedExercises := completedExercises (sessionStats state);
              totalReps := totalReps (sessionStats state);
              totalDuration := totalDuration (sessionStats state);
              otherStats :=
                <["summary" := payload]>
                  (<["endTime" := VStr now]> (otherStats (sessionStats state))) |};
         isLoading := isLoading state;
         error := error state |}
  | UPDATE_SESSION_STATS payload =>
      {| currentWorkout := currentWorkout state;
         exerciseSequence := exerciseSequence state;
         currentExerciseIndex := currentExerciseIndex state;
         activeExercise := activeExercise state;
         sessionStartTime := sessionStartTime state;
         sessionStats := merge_stats (sessionStats state) payload;
         isLoading := isLoading state;
         error := error state |}
  | SET_LOADING payload =>
      {| currentWorkout := currentWorkout state;
         exerciseSequence := exerciseSequence state;
         currentExerciseIndex := currentExerciseIndex state;
         activeExercise := activeExercise state;
         sessionStartTime := sessionStartTime state;
         sessionStats := sessionStats state;
         isLoading := payload;
         error := error state |}
  | SET_ERROR payload =>
      {| currentWorkout := currentWorkout state;
         exerciseSequence := exerciseSequence state;
         currentExerciseIndex := currentExerciseIndex state;
         activeExercise := activeExercise state;
         sessionStartTime := sessionStartTime state;
         sessionStats := sessionStats state;
         isLoading := VBool false;
         error := payload |}
  | RESET_STATE => initialState
  | OTHER _ _ => state
  end.

(** The wrappers of the provider; a dispatch is the reducer applied to the
    state. *)
Definition setCurrentExercise (now : string) (state : State) (index : Z) : State :=
  workoutReducer now state (SET_CURRENT_EXERCISE index).

Definition completeCurrentExercise (now : string) (state : State)
    (stats : ExerciseStats) : State :=
  if 0 <=? currentExerciseIndex state
  then workoutReducer now state
         (COMPLETE_EXERCISE (currentExerciseIndex state) stats)
  else state.

(** [item.completed === true] *)
Definition is_completed (item : gmap string JsVal) : bool :=
  match item !! "completed" with
  | Some (VBool true) => true
  | _ => false
  end.

(** The number of items of a sequence marked completed. *)
Definition completed_count (sequence : list (gmap string JsVal)) : Z :=
  Z.of_nat (length (filter (fun item => is_completed item = true) sequence)).

End WorkoutContext.
Import WorkoutContext.

(* ===================================================================== *)
(** ** Statements of the specification, in its own words                  *)
(* ===================================================================== *)

Module Spec.

(** An exercise that has a string [name]. *)
Definition named (exercise : JsVal) (name : string) : Prop :=
  prop exercise "name" = VStr name.

Definition has_name (exercise : JsVal) : Prop := ∃ name, named exercise name.

(** The maximal runs of a string, in order, each with whether it is a run
    of whitespace. *)
Fixpoint runs (s : string) : list (bool * string) :=
  match s with
  | EmptyString => []
  | String c s' =>
      match runs s' with
      | (b, r) :: rest =>
          if Bool.eqb b (is_space c) then (b, String c r) :: rest
          else (is_space c, String c EmptyString) :: (b, r) :: rest
      | [] => [(is_space c, String c EmptyString)]
      end
  end.

(** Neighbouring runs differ in kind: the runs are maximal. *)
Fixpoint alternate (l : list (bool * string)) : Prop :=
  match l with
  | br :: ((br' :: _) as rest) => br.1 ≠ br'.1 ∧ alternate rest
  | _ => True
  end.

(** The runs put together again, every run of whitespace replaced by one
    underscore. *)
Fixpoint underscore_runs (l : list (bool * string)) : string :=
  match l with
  | [] => ""
  | (true, _) :: rest => "_" +:+ underscore_runs rest
  | (false, r) :: rest => r +:+ underscore_runs rest
  end.

(** The runs as they are. *)
Fixpoint join_runs (l : list (bool * string)) : string :=
  match l with
  | [] => ""
  | (_, r) :: rest => r +:+ join_runs rest
  end.

(** The words of the specification: the name lowercased, with every run of
    whitespace replaced by ['_']. *)
Definition spec_id (name : string) : string :=
  underscore_runs (runs (toLowerCase name)).

(** A string contains another. *)
Definition contains (sub s : string) : Prop :=
  ∃ pre post, s = pre +:+ sub +:+ post.

(** Exactly one of [target_duration] and [target_reps] is not [null]. *)
Definition exactly_one_target (item : gmap string JsVal) : Prop :=
  (prop (VObj item) "target_duration" ≠ VNull ∧ prop (VObj item) "target_reps" = VNull)
  ∨ (prop (VObj item) "target_duration" = VNull ∧ prop (VObj item) "target_reps" ≠ VNull).

(** A day whose one exercise has no name. *)
Definition unnamed_day : JsVal :=
  VObj {[ "exercises" := VArr [VObj {[ "sets" := VNum 3 ]}] ]}.

(** A day whose one exercise is timed and has [reps: null]. *)
Definition plank_day : JsVal :=
  VObj {[ "exercises" :=
            VArr [VObj {[ "name" := VStr "Plank";
                          "is_timed" := VBool true;
                          "reps" := VNull ]}] ]}.

(** A day with two well-formed exercises. *)
Definition sample_day : JsVal :=
  VObj {[ "exercises" :=
            VArr [VObj {[ "name" := VStr "Bicep Curl"; "sets" := VNum 3;
                          "reps" := VNum 12 ]};
                  VObj {[ "name" := VStr "Plank"; "is_timed" := VBool true;
                          "reps" := VNum 60 ]}] ]}.

(** The fields of the reducer's state. *)
Inductive Field : Type :=
| FcurrentWorkout
| FexerciseSequence
| FcurrentExerciseIndex
| FactiveExercise
| FsessionStartTime
| FsessionStats
| FisLoading
| Ferror.

#[global] Instance Field_eq_dec : EqDecision Field.
Proof. solve_decision. Defined.

(** Two states have the same value in a field. *)
Definition same_field (f : Field) (s s' : State) : Prop :=
  match f with
  | FcurrentWorkout => currentWorkout s' = currentWorkout s
  | FexerciseSequence => exerciseSequence s' = exerciseSequence s
  | FcurrentExerciseIndex => currentExerciseIndex s' = currentExerciseIndex s
  | FactiveExercise => activeExercise s' = activeExercise s
  | FsessionStartTime => sessionStartTime s' = sessionStartTime s
  | FsessionStats => sessionStats s' = sessionStats s
  | FisLoading => isLoading s' = isLoading s
  | Ferror => error s' = error s
  end.

(** The fields the specification designates for an action type, for the
    five types it lists. *)
Definition designated (a : Action) : option (list Field) :=
  match a with
  | SET_CURRENT_WORKOUT _ => Some [FcurrentWorkout; Ferror]
  | SET_EXERCISE_SEQUENCE _ =>
      Some [FexerciseSequence; FcurrentExerciseIndex; FactiveExercise]
  | SET_CURRENT_EXERCISE _ => Some [FcurrentExerciseIndex; FactiveExercise]
  | SET_LOADING _ => Some [FisLoading]
  | SET_ERROR _ => Some [Ferror; FisLoading]
  | _ => None
  end.

(** An index that is a valid index into a sequence. *)
Definition valid_index (sequence : list (gmap string JsVal)) (i : Z) : Prop :=
  0 <= i < Z.of_nat (length sequence).

(** A state with a two-item sequence, and statistics, for the examples. *)
Definition sample_sequence : list (gmap string JsVal) :=
  [ {[ "id" := VStr "squat"; "completed" := VBool false ]};
    {[ "id" := VStr "plank"; "completed" := VBool false ]} ].

Definition sample_state : State :=
  {| currentWorkout := VNull;
     exerciseSequence := sample_sequence;
     currentExerciseIndex := 1;
     activeExercise := VNull;
     sessionStartTime := VStr "2024-01-01T00:00:00.000Z";
     sessionStats := initialSessionStats;
     isLoading := VBool true;
     error := VStr "stale" |}.

Definition sample_stats : ExerciseStats :=
  {| repCount := Some 12; duration := None; otherResults := ∅ |}.

(** The endpoint with one leading slash removed, if it has one. *)
Definition strip_leading_slash (endpoint : string) : string :=
  match endpoint with
  | String "/" rest => rest
  | _ => endpoint
  end.

(** The response is empty: status 204, or a [content-length] of ['0']. *)
Definition empty_response (response : Response) : Prop :=
  status response = 204 ∨ headers_get (headers response) "content-length" = Some "0".

(** The [content-type] header contains ['application/json']. *)
Definition json_content_type (response : Response) : Prop :=
  ∃ contentType, headers_get (headers response) "content-type" = Some contentType
                 ∧ contains "application/json" contentType.

(** A serialiser and responses for the examples. *)
Definition sample_stringify (v : JsVal) : string := "{}".

Definition SyntaxError : gmap string JsVal :=
  mkError "SyntaxError" "Unexpected token < in JSON at position 0".

(** 502 over HTTP/2: an HTML body and an empty status text. *)
Definition bad_gateway : Response :=
  {| ok := false; status := 502; statusText := "";
     headers := [("content-type", "text/html")];
     json := Thrown SyntaxError;
     text := "<html>Bad Gateway</html>" |}.

(** 404 with a JSON body that has an [error]. *)
Definition not_found : Response :=
  {| ok := false; status := 404; statusText := "Not Found";
     headers := [("Content-Type", "application/json")];
     json := Ok (VObj {[ "error" := VStr "No such plan" ]});
     text := "{}" |}.

(** 500 with the JSON body [null]. *)
Definition null_failure : Response :=
  {| ok := false; status := 500; statusText := "Internal Server Error";
     headers := [("content-type", "application/json")];
     json := Ok VNull;
     text := "null" |}.

(** 200 that announces JSON and carries HTML. *)
Definition mislabelled : Response :=
  {| ok := true; status := 200; statusText := "OK";
     headers := [("content-type", "application/json")];
     json := Thrown SyntaxError;
     text := "<html></html>" |}.

(** 200 with a JSON body. *)
Definition plans_found : Response :=
  {| ok := true; status := 200; statusText := "OK";
     headers := [("Content-Type", "application/json; charset=utf-8")];
     json := Ok (VObj {[ "success" := VBool true ]});
     text := "{}" |}.

(** 204. *)
Definition no_content : Response :=
  {| ok := true; status := 204; statusText := "No Content";
     headers := []; json := Thrown SyntaxError; text := "" |}.

(** 200 with a text body. *)
Definition plain_text : Response :=
  {| ok := true; status := 200; statusText := "OK";
     headers := [("content-type", "text/plain")];
     json := Thrown SyntaxError; text := "pong" |}.

(** A network that answers every request with the same response. *)
Definition always (response : Response) : Network :=
  fun _ _ _ => Ok response.

(** A network that is down. *)
Definition offline : Network :=
  fun _ _ _ => Thrown (TypeError "Failed to fetch").

End Spec.
Import Spec.

(* ===================================================================== *)
(** ** services/workoutService.js: the requests                           *)
(* ===================================================================== *)

Module WorkoutRequests.

Section WithHost.

Variable JSON_stringify : JsVal -> string.
Variable REACT_APP_API_URL : option string.

Local Abbreviation get := (Api.get JSON_stringify REACT_APP_API_URL).
Local Abbreviation post := (Api.post JSON_stringify REACT_APP_API_URL).
Local Abbreviation del := (Api.del JSON_stringify REACT_APP_API_URL).



(** [`workout/plans/${planId}`]: the template converts [planId] to a
    string. *)
Definition getWorkoutPlan (planId : JsVal) : Prog JsVal :=
  get ("workout/plans/" +:+ js_toString planId) ∅.


Definition startWorkoutPlan (planId : JsVal) : Prog JsVal :=
  post ("workout/plans/" +:+ js_toString planId +:+ "/start") (VObj ∅) ∅.

Definition getCurrentWorkout : Prog JsVal := get "workout/current" ∅.



End WithHost.

End WorkoutRequests.

(* ===================================================================== *)
(** ** context/WorkoutContext.jsx: the provider                           *)
(* ===================================================================== *)

Module Provider.

(** What the provider holds: the reducer's state and the two modal flags.
    Each function below is one call from a render that sees this value. *)
Record Provider : Type := mkProvider {
  state : State;
  showExerciseModal : bool;
  showSummaryModal : bool
}.

Definition initialProvider : Provider :=
  {| state := initialState; showExerciseModal := false; showSummaryModal := false |}.

(** [dispatch(action)] *)
Definition dispatch (now : string) (p : Provider) (action : Action) : Provider :=
  {| state := workoutReducer now (state p) action;
     showExerciseModal := showExerciseModal p;
     showSummaryModal := showSummaryModal p |}.

Definition setShowExerciseModal (p : Provider) (b : bool) : Provider :=
  {| state := state p; showExerciseModal := b; showSummaryModal := showSummaryModal p |}.

Definition setShowSummaryModal (p : Provider) (b : bool) : Provider :=
  {| state := state p; showExerciseModal := showExerciseModal p; showSummaryModal := b |}.

Definition setCurrentWorkout (now : string) (p : Provider) (workout : JsVal) : Provider :=
  dispatch now p (SET_CURRENT_WORKOUT workout).

Definition setExerciseSequence (now : string) (p : Provider)
    (sequence : list (gmap string JsVal)) : Provider :=
  dispatch now p (SET_EXERCISE_SEQUENCE sequence).

(** The test of the modal reads the sequence of the render that made the
    call. *)
Definition setCurrentExercise (now : string) (p : Provider) (index : Z) : Provider :=
  setShowExerciseModal
    (dispatch now p (SET_CURRENT_EXERCISE index))
    ((0 <=? index) && (index <? Z.of_nat (length (exerciseSequence (state p))))).

Definition completeCurrentExercise (now : string) (p : Provider)
    (stats : ExerciseStats) : Provider :=
  if 0 <=? currentExerciseIndex (state p)
  then dispatch now p (COMPLETE_EXERCISE (currentExerciseIndex (state p)) stats)
  else p.

Definition startWorkoutSession (now : string) (p : Provider) : Provider :=
  dispatch now p START_SESSION.

Definition endWorkoutSession (now : string) (p : Provider) (summary : JsVal) : Provider :=
  setShowSummaryModal (dispatch now p (END_SESSION summary)) true.

Definition updateSessionStats (now : string) (p : Provider)
    (stats : SessionStatsUpdate) : Provider :=
  dispatch now p (UPDATE_SESSION_STATS stats).

Definition goToNextExercise (now : string) (p : Provider) : Provider :=
  let nextIndex := currentExerciseIndex (state p) + 1 in
  if nextIndex <? Z.of_nat (length (exerciseSequence (state p)))
  then setCurrentExercise now p nextIndex
  else setShowSummaryModal (setShowExerciseModal p false) true.

Definition goToPreviousExercise (now : string) (p : Provider) : Provider :=
  let prevIndex := currentExerciseIndex (state p) - 1 in
  if 0 <=? prevIndex then setCurrentExercise now p prevIndex else p.

Definition resetWorkoutState (now : string) (p : Provider) : Provider :=
  setShowSummaryModal (setShowExerciseModal (dispatch now p RESET_STATE) false) false.

(** The calls a component can make, as data, and a run of them. *)
Inductive Call : Type :=
| SetCurrentWorkout (workout : JsVal)
| SetExerciseSequence (sequence : list (gmap string JsVal))
| SetCurrentExercise (index : Z)
| CompleteCurrentExercise (stats : ExerciseStats)
| StartWorkoutSession
| EndWorkoutSession (summary : JsVal)
| UpdateSessionStats (stats : SessionStatsUpdate)
| GoToNextExercise
| GoToPreviousExercise
| ResetWorkoutState
| SetShowExerciseModal (b : bool)
| SetShowSummaryModal (b : bool).

Definition call (now : string) (p : Provider) (c : Call) : Provider :=
  match c with
  | SetCurrentWorkout workout => setCurrentWorkout now p workout
  | SetExerciseSequence sequence => setExerciseSequence now p sequence
  | SetCurrentExercise index => setCurrentExercise now p index
  | CompleteCurrentExercise stats => completeCurrentExercise now p stats
  | StartWorkoutSession => startWorkoutSession now p
  | EndWorkoutSession summary => endWorkoutSession now p summary
  | UpdateSessionStats stats => updateSessionStats now p stats
  | GoToNextExercise => goToNextExercise now p
  | GoToPreviousExercise => goToPreviousExercise now p
  | ResetWorkoutState => resetWorkoutState now p
  | SetShowExerciseModal b => setShowExerciseModal p b
  | SetShowSummaryModal b => setShowSummaryModal p b
  end.

Definition calls (now : string) (p : Provider) (cs : list Call) : Provider :=
  fold_left (call now) cs p.

(** A run of reducer actions. *)
Definition reduce (now : string) (s : State) (actions : list Action) : State :=
  fold_left (workoutReducer now) actions s.

(** The actions that neither replace the sequence nor overwrite the
    session statistics. *)
Definition in_session (a : Action) : bool :=
  match a with
  | SET_EXERCISE_SEQUENCE _ | START_SESSION | UPDATE_SESSION_STATS _ => false
  | _ => true
  end.

(** The number of completed items is at most the counter of the session. *)
Definition counted (s : State) : Prop :=
  completed_count (exerciseSequence s) <= completedExercises (sessionStats s).

(** The two calls that step through the sequence. *)
Definition navigation (c : Call) : bool :=
  match c with
  | GoToNextExercise | GoToPreviousExercise => true
  | _ => false
  end.

(** The current index is a valid one and [activeExercise] is the item at
    it. *)
Definition on_item (p : Provider) : Prop :=
  valid_index (exerciseSequence (state p)) (currentExerciseIndex (state p))
  ∧ activeExercise (state p)
    = item_or_null (exerciseSequence (state p)) (currentExerciseIndex (state p)).

(** [await p] followed by a continuation that sees how [p] settled. *)
Fixpoint and_then {A B} (p : Prog A) (k : JsResult A -> Prog B) : Prog B :=
  match p with
  | Done r => k r
  | Fetch u c k' => Fetch u c (fun r => and_then (k' r) k)
  end.

(** The effect that loads the current workout when the provider mounts:
    loading on, the request, the workout stored when the response has a
    truthy [success] and [workout_plan], a failure only logged, and loading
    off in the [finally] block.  Nothing else is dispatched while the
    request is pending. *)
Definition loadCurrentWorkout (JSON_stringify : JsVal -> string)
    (REACT_APP_API_URL : option string) (now : string) (p : Provider)
  : Prog Provider :=
  let loading := dispatch now p (SET_LOADING (VBool true)) in
  and_then (WorkoutRequests.getCurrentWorkout JSON_stringify REACT_APP_API_URL)
    (fun settled =>
       let loaded :=
         match settled with
         | Ok response =>
             if truthy response
                && truthy (prop response "success")
                && truthy (prop response "workout_plan")
             then dispatch now loading
                    (SET_CURRENT_WORKOUT (prop response "workout_plan"))
             else loading
         | Thrown _ => loading
         end in
       Done (Ok (dispatch now loaded (SET_LOADING (VBool false))))).

End Provider.

(* ===================================================================== *)
(** ** More string primitives                                             *)
(* ===================================================================== *)

Module JsStringMore.

Definition is_lower (c : ascii) : bool :=
  let n := nat_of_ascii c in (97 <=? n)%nat && (n <=? 122)%nat.

Definition upper_char (c : ascii) : ascii :=
  if is_lower c then ascii_of_nat (nat_of_ascii c - 32) else c.

(** [s.toUpperCase()] *)
Fixpoint toUpperCase (s : string) : string :=
  match s with
  | EmptyString => EmptyString
  | String c s' => String (upper_char c) (toUpperCase s')
  end.

(** Two characters match under the flag [i]. *)
Definition eqb_ci (a b : ascii) : bool :=
  Ascii.eqb (upper_char a) (upper_char b).

(** A literal matches at the start of a string, under the flag [i]. *)
Fixpoint prefix_ci (p s : string) : bool :=
  match p, s with
  | EmptyString, _ => true
  | String a p', String b s' => eqb_ci a b && prefix_ci p' s'
  | String _ _, EmptyString => false
  end.

(** A literal matches somewhere in a string, under the flag [i]. *)
Fixpoint includes_ci (sub s : string) : bool :=
  prefix_ci sub s ||
  match s with
  | EmptyString => false
  | String _ s' => includes_ci sub s'
  end.

(** [/a|b|.../i.test(s)] for literals [a], [b], ... *)
Definition test_alternatives_ci (alternatives : list string) (s : string) : bool :=
  existsb (fun a => includes_ci a s) alternatives.

(** [s.padStart(n, '0')] *)
Definition padStart0 (n : nat) (s : string) : string :=
  String.concat "" (replicate (n - String.length s) "0") +:+ s.

(** The number of occurrences of a character. *)
Fixpoint count_char (c : ascii) (s : string) : nat :=
  match s with
  | EmptyString => 0
  | String a s' => (if Ascii.eqb a c then 1 else 0) + count_char c s'
  end.

(** A character that the form encoding of a name or a value can produce. *)
Definition form_safe (c : ascii) : bool :=
  form_unreserved c || Ascii.eqb c "+" || Ascii.eqb c "%".

(** A character that can occur in a serialised query. *)
Definition query_safe (c : ascii) : bool :=
  form_safe c || Ascii.eqb c "=" || Ascii.eqb c "&".

End JsStringMore.
Import JsStringMore.

(* ===================================================================== *)
(** ** components/feedback/FeedbackDisplay.jsx: the component             *)
(* ===================================================================== *)

Module FeedbackDisplay.

Inductive Icon : Type := CheckCircle | AlertTriangle | XCircle | Info.

(** What [getFeedbackType] returns. *)
Record FeedbackType : Type := mkFeedbackType {
  type : string;
  icon : Icon;
  bgColor : string;
  borderColor : string;
  textColor : string;
  iconColor : string
}.

Definition getFeedbackType (feedbackText : string) : FeedbackType :=
  let lowercaseFeedback := toLowerCase feedbackText in
  if includes "good" lowercaseFeedback
     || includes "great" lowercaseFeedback
     || includes "excellent" lowercaseFeedback
     || includes "correct form" lowercaseFeedback
     || includes "keep it up" lowercaseFeedback
  then {| type := "success"; icon := CheckCircle;
          bgColor := "bg-green-50"; borderColor := "border-green-200";
          textColor := "text-green-800"; iconColor := "text-green-500" |}
  else if includes "try to" lowercaseFeedback
          || includes "slightly" lowercaseFeedback
          || includes "consider" lowercaseFeedback
  then {| type := "warning"; icon := AlertTriangle;
          bgColor := "bg-yellow-50"; borderColor := "border-yellow-200";
          textColor := "text-yellow-800"; iconColor := "text-yellow-400" |}
  else if includes "don't" lowercaseFeedback
          || includes "keep your" lowercaseFeedback
          || includes "maintain" lowercaseFeedback
          || includes "lower" lowercaseFeedback
          || includes "raise" lowercaseFeedback
  then {| type := "error"; icon := XCircle;
          bgColor := "bg-red-50"; borderColor := "border-red-200";
          textColor := "text-red-800"; iconColor := "text-red-500" |}
  else {| type := "info"; icon := Info;
          bgColor := "bg-blue-50"; borderColor := "border-blue-200";
          textColor := "text-blue-800"; iconColor := "text-blue-500" |}.

(** An item of [displayedFeedback]. *)
Record Item : Type := mkItem {
  id : string;
  text : string;
  timestamp : Z;
  feedbackType : FeedbackType;
  isNew : bool
}.

(** The component's state: the displayed items and [lastFeedbackRef]. *)
Record Display : Type := mkDisplay {
  displayedFeedback : list Item;
  lastFeedback : list string
}.

Definition initialDisplay : Display :=
  {| displayedFeedback := []; lastFeedback := [] |}.

(** The items made of the new feedback strings; [stamp k] is the
    identifier and the [Date.now()] that the [k]-th of them gets. *)
Definition newFeedback (stamp : nat -> string * Z) (last feedback : list string)
  : list Item :=
  imap (fun k item =>
          {| id := (stamp k).1;
             text := item;
             timestamp := (stamp k).2;
             feedbackType := getFeedbackType item;
             isNew := true |})
       (filter (fun item => item ∉ last) feedback).

(** The effect on a change of the [feedback] prop.  Two arrays of strings
    have the same [JSON.stringify] exactly when they are equal. *)
Definition feedbackChanged (stamp : nat -> string * Z) (d : Display)
    (feedback : list string) : Display :=
  if bool_decide (feedback ≠ lastFeedback d)
  then
    let new := newFeedback stamp (lastFeedback d) feedback in
    {| displayedFeedback :=
         (if (0 <? length new)%nat
          then take 3 (new ++ displayedFeedback d)
          else displayedFeedback d);
       lastFeedback := feedback |}
  else d.

(** The timeout that ends the animation. *)
Definition animationDone (d : Display) : Display :=
  {| displayedFeedback :=
       map (fun item =>
              {| id := id item; text := text item; timestamp := timestamp item;
                 feedbackType := feedbackType item; isNew := false |})
           (displayedFeedback d);
     lastFeedback := lastFeedback d |}.

(** The dismissal timeout; [now] is the [Date.now()] read when the timer
    was armed. *)
Definition dismiss (dismissAfter now : Z) (d : Display) : Display :=
  {| displayedFeedback :=
       filter (fun item => now - timestamp item < dismissAfter) (displayedFeedback d);
     lastFeedback := lastFeedback d |}.

Inductive Event : Type :=
| FeedbackChanged (stamp : nat -> string * Z) (feedback : list string)
| AnimationDone
| Dismiss (dismissAfter now : Z).

Definition step (d : Display) (e : Event) : Display :=
  match e with
  | FeedbackChanged stamp feedback => feedbackChanged stamp d feedback
  | AnimationDone => animationDone d
  | Dismiss dismissAfter now =>
      (* the timer is armed only when [dismissAfter > 0] *)
      if 0 <? dismissAfter then dismiss dismissAfter now d else d
  end.

Definition run_events (d : Display) (events : list Event) : Display :=
  fold_left step events d.

End FeedbackDisplay.

(* ===================================================================== *)
(** ** components/feedback/FeedbackList.jsx                               *)
(* ===================================================================== *)

Module FeedbackList.

Inductive Icon : Type := CheckCircle | AlertTriangle | XCircle | Info.

Record Styles : Type := mkStyles {
  icon : Icon;
  bgColor : string;
  borderColor : string;
  textColor : string;
  iconColor : string
}.

(** The alternatives of [/good|excellent|great|correct form|keep it up/i]. *)
Definition positive_words : list string :=
  ["good"; "excellent"; "great"; "correct form"; "keep it up"].

(** [getSeverityStyles(severity, feedbackText)]; the test converts the text
    to a string, and [toUpperCase] is there on a string only. *)
Definition getSeverityStyles (severity feedbackText : JsVal) : JsResult Styles :=
  let severityLevel := js_or severity (VStr "MEDIUM") in
  let isPositive := test_alternatives_ci positive_words (js_toString feedbackText) in
  if isPositive
  then Ok {| icon := CheckCircle;
             bgColor := "bg-green-50"; borderColor := "border-green-100";
             textColor := "text-green-800"; iconColor := "text-green-500" |}
  else
    match severityLevel with
    | VStr level =>
        let upper := toUpperCase level in
        if String.eqb upper "HIGH"
        then Ok {| icon := XCircle;
                   bgColor := "bg-red-50"; borderColor := "border-red-100";
                   textColor := "text-red-800"; iconColor := "text-red-500" |}
        else if String.eqb upper "MEDIUM"
        then Ok {| icon := AlertTriangle;
                   bgColor := "bg-yellow-50"; borderColor := "border-yellow-100";
                   textColor := "text-yellow-800"; iconColor := "text-yellow-500" |}
        else if String.eqb upper "LOW"
        then Ok {| icon := Info;
                   bgColor := "bg-blue-50"; borderColor := "border-blue-100";
                   textColor := "text-blue-800"; iconColor := "text-blue-500" |}
        else Ok {| icon := Info;
                   bgColor := "bg-gray-50"; borderColor := "border-gray-100";
                   textColor := "text-gray-800"; iconColor := "text-gray-500" |}
    | _ => Thrown (TypeError "severityLevel.toUpperCase is not a function")
    end.

End FeedbackList.

(* ===================================================================== *)
(** ** The component [ExerciseCounter]: [formatTime]                      *)
(* ===================================================================== *)

Module ExerciseCounter.

(** [formatTime(seconds)] on a whole number of seconds: [Math.floor] of the
    quotient is the floor division, [%] is the remainder with the sign of
    the dividend. *)
Definition formatTime (seconds : Z) : string :=
  let mins := seconds / 60 in
  let secs := Z.rem seconds 60 in
  padStart0 2 (pretty mins) +:+ ":" +:+ padStart0 2 (pretty secs).

(** The decimal digit of a number from 0 to 9. *)
Definition digit (d : Z) : ascii := ascii_of_nat (48 + Z.to_nat d).

End ExerciseCounter.

(* ===================================================================== *)
(** ** components/layout/Sidebar.jsx: [isActive]                          *)
(* ===================================================================== *)

Module Sidebar.

(** The navigation items: name and path. *)
Definition navItems : list (string * string) :=
  [ ("Dashboard", "/");
    ("Exercise Tracker", "/exercise");
    ("Workout Planner", "/workout");
    ("Workout History", "/history");
    ("AI Coach", "/ai-chat");
    ("Profile", "/profile") ].

(** [isActive(path)], for the [location.pathname] of the render. *)
Definition isActive (pathname path : string) : bool :=
  if String.eqb path "/"
  then String.eqb pathname path
  else startsWith path pathname.

End Sidebar.

(* ===================================================================== *)
(** ** The page [ExerciseTracker]: its state                              *)
(* ===================================================================== *)

Module ExerciseTracker.

Record Exercise : Type := mkExercise {
  id : string;
  name : string;
  isTimed : bool
}.

Definition exercises : list Exercise :=
  [ {| id := "bicep_curl"; name := "Bicep Curl"; isTimed := false |};
    {| id := "squat"; name := "Squat"; isTimed := false |};
    {| id := "pushup"; name := "Push-up"; isTimed := false |};
    {| id := "lunge"; name := "Lunge"; isTimed := false |};
    {| id := "plank"; name := "Plank"; isTimed := true |};
    {| id := "jumping_jack"; name := "Jumping Jack"; isTimed := false |} ].

Record Tracker : Type := mkTracker {
  selectedExercise : option Exercise;
  trackerIsTimed : bool;
  targetReps : Z;
  targetDuration : Z;
  exerciseActive : bool;
  exerciseCompleted : bool;
  exerciseResults : JsVal
}.

Definition initialTracker : Tracker :=
  {| selectedExercise := None;
     trackerIsTimed := false;
     targetReps := 10;
     targetDuration := 60;
     exerciseActive := false;
     exerciseCompleted := false;
     exerciseResults := VNull |}.

(** [Math.max(least, parseInt(value) || 0)]; [parsed] is what [parseInt]
    gives, [None] for [NaN]. *)
Definition clamp_input (least : Z) (parsed : option Z) : Z :=
  Z.max least (match parsed with
               | Some n => if n =? 0 then 0 else n
               | None => 0
               end).

(** What happens to the page. *)
Inductive Event : Type :=
| ExerciseSelect (exercise : Exercise)
| TargetRepsInput (parsed : option Z)
| TargetDurationInput (parsed : option Z)
| StartSucceeded
| StartFailed
| StopSucceeded (data : JsVal)
| StopFailed
| ResetExercise.

Definition step (t : Tracker) (e : Event) : Tracker :=
  match e with
  | ExerciseSelect exercise =>
      {| selectedExercise := Some exercise;
         trackerIsTimed := isTimed exercise;
         targetReps := targetReps t;
         targetDuration := targetDuration t;
         exerciseActive := exerciseActive t;
         exerciseCompleted := exerciseCompleted t;
         exerciseResults := exerciseResults t |}
  | TargetRepsInput parsed =>
      {| selectedExercise := selectedExercise t;
         trackerIsTimed := trackerIsTimed t;
         targetReps := clamp_input 1 parsed;
         targetDuration := targetDuration t;
         exerciseActive := exerciseActive t;
         exerciseCompleted := exerciseCompleted t;
         exerciseResults := exerciseResults t |}
  | TargetDurationInput parsed =>
      {| selectedExercise := selectedExercise t;
         trackerIsTimed := trackerIsTimed t;
         targetReps := targetReps t;
         targetDuration := clamp_input 5 parsed;
         exerciseActive := exerciseActive t;
         exerciseCompleted := exerciseCompleted t;
         exerciseResults := exerciseResults t |}
  | StartSucceeded =>
      {| selectedExercise := selectedExercise t;
         trackerIsTimed := trackerIsTimed t;
         targetReps := targetReps t;
         targetDuration := targetDuration t;
         exerciseActive := true;
         exerciseCompleted := false;
         exerciseResults := VNull |}
  | StartFailed => t
  | StopSucceeded data =>
      {| selectedExercise := selectedExercise t;
         trackerIsTimed := trackerIsTimed t;
         targetReps := targetReps t;
         targetDuration := targetDuration t;
         exerciseActive := false;
         exerciseCompleted := true;
         exerciseResults := data |}
  | StopFailed =>
      {| selectedExercise := selectedExercise t;
         trackerIsTimed := trackerIsTimed t;
         targetReps := targetReps t;
         targetDuration := targetDuration t;
         exerciseActive := false;
         exerciseCompleted := exerciseCompleted t;
         exerciseResults := exerciseResults t |}
  | ResetExercise =>
      {| selectedExercise := None;
         trackerIsTimed := trackerIsTimed t;
         targetReps := targetReps t;
         targetDuration := targetDuration t;
         exerciseActive := exerciseActive t;
         exerciseCompleted := false;
         exerciseResults := VNull |}
  end.

(** The argument [handleStartExercise] gives the start mutation; nothing
    when no exercise is selected. *)
Definition startParams (t : Tracker) : option (gmap string JsVal) :=
  match selectedExercise t with
  | None => None
  | Some exercise =>
      Some {[ "exercise" := VStr (id exercise);
              "is_timed" := VBool (trackerIsTimed t);
              "target_reps" := (if trackerIsTimed t then VNull else VNum (targetReps t));
              "target_duration" :=
                (if trackerIsTimed t then VNum (targetDuration t) else VNull) ]}
  end.

(** What the page keeps true: the targets have their minimum, an exercise
    is not both active and completed, and the timed flag is the one of the
    selected exercise. *)
Definition tracker_ok (t : Tracker) : Prop :=
  1 <= targetReps t
  ∧ 5 <= targetDuration t
  ∧ (exerciseActive t && exerciseCompleted t = false)
  ∧ (∀ exercise, selectedExercise t = Some exercise ->
       trackerIsTimed t = isTimed exercise).

Definition run_events (t : Tracker) (events : list Event) : Tracker :=
  fold_left step events t.

End ExerciseTracker.

(* ===================================================================== *)
(** ** Facts about the JavaScript primitives                              *)
(* ===================================================================== *)

Lemma bind_Ok_inv {A B} (r : JsResult A) (f : A -> JsResult B) (b : B) :
  bind r f = Ok b -> ∃ a, r = Ok a ∧ f a = Ok b.
Proof. destruct r as [a|e]; simpl; [eauto | discriminate]. Qed.

Lemma js_get_Ok (v : JsVal) (k : string) (x : JsVal) :
  js_get v k = Ok x -> x = prop v k.
Proof. destruct v; simpl; intros H; inversion H; reflexivity. Qed.

Lemma js_get_prop (v : JsVal) (k : string) (s : string) :
  prop v k = VStr s -> js_get v k = Ok (VStr s).
Proof. destruct v; simpl; intros H; try discriminate; rewrite H; reflexivity. Qed.

(** [map] with a callback that does not throw returns an array of the same
    length, the callback's results in the order of the arguments. *)
Lemma array_map_Ok_inv {A B} (f : A -> JsResult B) (l : list A) (ys : list B) :
  array_map f l = Ok ys ->
  length ys = length l
  ∧ ∀ (i : nat) (y : B), ys !! i = Some y -> ∃ x, l !! i = Some x ∧ f x = Ok y.
Proof.
  revert ys. induction l as [|x l IH]; intros ys H; simpl in H.
  - inversion H; subst. split; [reflexivity|]. intros i y Hy. destruct i; discriminate.
  - apply bind_Ok_inv in H as (y0 & Hy0 & H).
    apply bind_Ok_inv in H as (ys0 & Hys0 & H).
    inversion H; subst; clear H.
    destruct (IH _ Hys0) as [Hlen Hnth].
    split; [simpl; congruence|].
    intros [|i] y Hy; simpl in *.
    + inversion Hy; subst. eauto.
    + eauto.
Qed.

Lemma array_map_total {A B} (f : A -> JsResult B) (l : list A) :
  Forall (fun x => ∃ y, f x = Ok y) l -> ∃ ys, array_map f l = Ok ys.
Proof.
  induction 1 as [|x l [y Hy] _ [ys Hys]]; simpl.
  - eauto.
  - rewrite Hy; simpl. rewrite Hys; simpl. eauto.
Qed.

Lemma array_map_throws {A B} (f : A -> JsResult B) (l : list A) (x : A) :
  x ∈ l -> is_thrown (f x) = true -> is_thrown (array_map f l) = true.
Proof.
  induction 1 as [x l|x x' l _ IH]; intros Hx; simpl.
  - destruct (f x); [discriminate | reflexivity].
  - destruct (f x'); simpl; [|reflexivity].
    specialize (IH Hx). destruct (array_map f l); [discriminate | reflexivity].
Qed.

(** *** The identifier of an item *)


Lemma lower_char_not_upper (c : ascii) : is_upper (lower_char c) = false.
Proof.
  destruct c as [[] [] [] [] [] [] [] []]; reflexivity.
Qed.

Lemma lower_char_idem (c : ascii) : lower_char (lower_char c) = lower_char c.
Proof.
  destruct c as [[] [] [] [] [] [] [] []]; reflexivity.
Qed.

Lemma replace_runs_no_space (b : bool) (s : string) :
  all_chars (fun c => negb (is_space c)) (replace_runs b s) = true.
Proof.
  revert b. induction s as [|c s IH]; intros b; simpl; [reflexivity|].
  destruct (is_space c) eqn:Hc.
  - destruct b; simpl; auto.
  - simpl. rewrite Hc. simpl. auto.
Qed.

Lemma replace_runs_no_upper (b : bool) (s : string) :
  all_chars (fun c => negb (is_upper c)) s = true ->
  all_chars (fun c => negb (is_upper c)) (replace_runs b s) = true.
Proof.
  revert b. induction s as [|c s IH]; intros b; simpl; [reflexivity|].
  intros [Hc Hs]%andb_prop.
  destruct (is_space c); [destruct b|]; simpl; auto.
  rewrite Hc. simpl. auto.
Qed.

Lemma toLowerCase_no_upper (s : string) :
  all_chars (fun c => negb (is_upper c)) (toLowerCase s) = true.
Proof.
  induction s as [|c s IH]; simpl; [reflexivity|].
  rewrite lower_char_not_upper. simpl. exact IH.
Qed.


(** A run of whitespace between two words becomes one underscore. *)
Lemma replace_runs_word_run (w r s : string) (c : ascii) :
  all_chars (fun c => negb (is_space c)) w = true ->
  all_chars is_space r = true ->
  is_space c = true ->
  replace_runs false (w +:+ String c r +:+ s)
  = w +:+ String "_" (replace_runs true s).
Proof.
  intros Hw Hr Hc. induction w as [|a w IH]; simpl in *.
  - rewrite Hc. f_equal. clear Hc. induction r as [|a r IH]; simpl in *; [reflexivity|].
    apply andb_prop in Hr as [Ha Hr]. rewrite Ha. auto.
  - apply andb_prop in Hw as [Ha Hw]. apply negb_true_iff in Ha. rewrite Ha.
    rewrite (IH Hw). reflexivity.
Qed.

Lemma replace_runs_true_word (a : ascii) (s : string) :
  is_space a = false ->
  replace_runs true (String a s) = replace_runs false (String a s).
Proof. intros Ha. simpl. rewrite Ha. reflexivity. Qed.

(** The identifier has neither whitespace nor upper-case letters. *)
Lemma exercise_id_clean (name : string) :
  all_chars (fun c => negb (is_space c) && negb (is_upper c)) (exercise_id name) = true.
Proof.
  unfold exercise_id, replace_whitespace.
  pose proof (replace_runs_no_space false (toLowerCase name)) as H1.
  pose proof (replace_runs_no_upper false _ (toLowerCase_no_upper name)) as H2.
  induction (replace_runs false (toLowerCase name)) as [|c s IH]; simpl in *; [reflexivity|].
  apply andb_prop in H1 as [-> H1]. apply andb_prop in H2 as [-> H2]. simpl. auto.
Qed.

(** *** The regular expression against the words of the specification *)

Lemma runs_join (s : string) : join_runs (runs s) = s.
Proof.
  induction s as [|c s IH]; simpl; [reflexivity|].
  destruct (runs s) as [|[b r] rest]; simpl in *.
  - subst s. reflexivity.
  - destruct (Bool.eqb b (is_space c)); simpl; rewrite <- IH; reflexivity.
Qed.

(** Each run is not empty and is whitespace throughout, or free of it. *)
Lemma runs_uniform (s : string) :
  Forall (fun br => br.2 ≠ ""
                    ∧ all_chars (fun c => Bool.eqb (is_space c) br.1) br.2 = true)
         (runs s).
Proof.
  induction s as [|c s IH]; simpl; [constructor|].
  destruct (runs s) as [|[b r] rest].
  - constructor; [|constructor]. simpl. split; [discriminate|].
    destruct (is_space c); reflexivity.
  - inversion IH as [|? ? [Hne Hall] Hrest]; subst. simpl in *.
    destruct (Bool.eqb b (is_space c)) eqn:Hb.
    + constructor; [|exact Hrest]. simpl. split; [discriminate|].
      apply Bool.eqb_prop in Hb. subst b. rewrite Hall.
      destruct (is_space c); reflexivity.
    + constructor; [|exact IH]. simpl. split; [discriminate|].
      destruct (is_space c); reflexivity.
Qed.

Lemma runs_alternate (s : string) : alternate (runs s).
Proof.
  induction s as [|c s IH]; simpl; [exact I|].
  destruct (runs s) as [|[b r] rest]; [exact I|].
  destruct (Bool.eqb b (is_space c)) eqn:Hb.
  - destruct rest; [exact I|]. simpl in *. exact IH.
  - split; [|exact IH]. simpl. intros Heq. subst b.
    rewrite Bool.eqb_reflx in Hb. discriminate.
Qed.

Lemma replace_runs_underscore (s : string) :
  replace_runs false s = underscore_runs (runs s)
  ∧ replace_runs true s
    = match runs s with
      | (true, _) :: rest => underscore_runs rest
      | l => underscore_runs l
      end.
Proof.
  induction s as [|c s [IHf IHt]]; simpl; [split; reflexivity|].
  destruct (is_space c) eqn:Hc.
  - rewrite IHt. destruct (runs s) as [|[[] r] rest]; simpl; split; reflexivity.
  - rewrite IHf. destruct (runs s) as [|[[] r] rest]; simpl; split; reflexivity.
Qed.

(** The identifier the code computes is the one the specification words. *)
Lemma exercise_id_spec (name : string) : exercise_id name = spec_id name.
Proof. apply replace_runs_underscore. Qed.

(** *** [startsWith] and [includes] *)

Lemma startsWith_app (p s : string) :
  startsWith p s = true <-> ∃ post, s = p +:+ post.
Proof.
  unfold startsWith. revert s. induction p as [|a p IH]; intros s.
  - destruct s; simpl; split; eauto.
  - destruct s as [|b s]; simpl.
    + split; [discriminate | intros [post H]; discriminate].
    + destruct (Ascii.ascii_dec a b) as [<-|Hab].
      * rewrite IH. split; intros [post H]; exists post.
        -- rewrite H. reflexivity.
        -- change (String a s = String a (p +:+ post)) in H. congruence.
      * split; [discriminate|]. intros [post H].
        change (String b s = String a (p +:+ post)) in H. congruence.
Qed.

Lemma includes_unfold (sub s : string) :
  includes sub s
  = startsWith sub s
    || match s with
       | EmptyString => false
       | String _ s' => includes sub s'
       end.
Proof. destruct s; reflexivity. Qed.

Lemma includes_contains (sub s : string) :
  includes sub s = true <-> contains sub s.
Proof.
  unfold contains. split.
  - induction s as [|c s IH]; rewrite includes_unfold; intros [H|H]%orb_prop;
      try discriminate H.
    + apply startsWith_app in H as [post H]. exists "", post. exact H.
    + apply startsWith_app in H as [post H]. exists "", post. exact H.
    + destruct (IH H) as (pre & post & ->). exists (String c pre), post. reflexivity.
  - intros (pre & post & ->). induction pre as [|c pre IH]; rewrite includes_unfold.
    + replace (startsWith sub ("" +:+ sub +:+ post)) with true; [reflexivity|].
      symmetry. apply startsWith_app. exists post. reflexivity.
    + change (String c pre +:+ sub +:+ post) with (String c (pre +:+ sub +:+ post)).
      cbv iota beta. rewrite IH. apply orb_true_r.
Qed.

Example exercise_id_bicep : exercise_id "Bicep  Curl" = "bicep_curl".
Proof. reflexivity. Qed.

Example exercise_id_jack : exercise_id " Jumping Jack " = "_jumping_jack_".
Proof. reflexivity. Qed.

(* ===================================================================== *)
(** ** [createExerciseSequence]                                           *)
(* ===================================================================== *)

Lemma sequence_item_named (exercise : JsVal) (name : string) :
  named exercise name ->
  sequence_item exercise
  = Ok (item_literal exercise (VStr name) (toLowerCase name)).
Proof.
  intros H. unfold sequence_item. rewrite (js_get_prop _ _ _ H). reflexivity.
Qed.

Lemma sequence_item_Ok_inv (exercise : JsVal) (item : gmap string JsVal) :
  sequence_item exercise = Ok item ->
  ∃ name, named exercise name
          ∧ item = item_literal exercise (VStr name) (toLowerCase name).
Proof.
  unfold sequence_item. intros H.
  apply bind_Ok_inv in H as (v & Hv & H).
  apply bind_Ok_inv in H as (lowered & Hl & H).
  apply js_get_Ok in Hv. subst v.
  destruct (prop exercise "name") as [| |b|n|s|l|o] eqn:Hn; try discriminate.
  simpl in Hl. inversion Hl; subst. inversion H; subst.
  exists s. split; [exact Hn | reflexivity].
Qed.

Lemma sequence_item_unnamed (exercise : JsVal) :
  ¬ has_name exercise -> is_thrown (sequence_item exercise) = true.
Proof.
  intros H. destruct (sequence_item exercise) as [item|e] eqn:E; [|reflexivity].
  apply sequence_item_Ok_inv in E as (name & Hn & _). exfalso. apply H. exists name. exact Hn.
Qed.

Lemma TypeError_name (message : string) :
  TypeError message !! "name" = Some (VStr "TypeError").
Proof. unfold TypeError, mkError. apply lookup_insert_eq. Qed.

Lemma array_map_Thrown_inv {A B} (f : A -> JsResult B) (l : list A)
    (e : gmap string JsVal) :
  array_map f l = Thrown e -> ∃ x, x ∈ l ∧ f x = Thrown e.
Proof.
  induction l as [|x l IH]; simpl; [discriminate|].
  destruct (f x) as [y|e0] eqn:Hx; simpl.
  - destruct (array_map f l) as [ys|e1]; simpl; [discriminate|].
    intros H. destruct (IH H) as (x' & Hin & Hx').
    exists x'. split; [apply list_elem_of_further; exact Hin | exact Hx'].
  - intros H. exists x. split; [apply list_elem_of_here | congruence].
Qed.

Lemma sequence_item_Thrown (exercise : JsVal) (e : gmap string JsVal) :
  sequence_item exercise = Thrown e -> e !! "name" = Some (VStr "TypeError").
Proof.
  unfold sequence_item.
  destruct exercise as [| |b|n|s|l|o]; simpl;
    try (intros H; inversion H; apply TypeError_name).
  all: match goal with
       | |- context [call_toLowerCase ?v] =>
           destruct v; simpl; intros H; inversion H; apply TypeError_name
       end.
Qed.

Lemma createExerciseSequence_Thrown_inv (workoutDay : JsVal) (e : gmap string JsVal) :
  createExerciseSequence workoutDay = Thrown e ->
  array_map sequence_item (elements_of (prop workoutDay "exercises")) = Thrown e.
Proof.
  unfold createExerciseSequence.
  destruct (negb (truthy workoutDay) || negb (truthy (prop workoutDay "exercises"))
            || negb (isArray (prop workoutDay "exercises"))); [discriminate|].
  trivial.
Qed.

Lemma createExerciseSequence_array (workoutDay : JsVal) (exercises : list JsVal) :
  prop workoutDay "exercises" = VArr exercises ->
  createExerciseSequence workoutDay = array_map sequence_item exercises.
Proof.
  intros H. unfold createExerciseSequence. rewrite H. simpl.
  destruct workoutDay; try discriminate. reflexivity.
Qed.

Lemma createExerciseSequence_Ok_inv (workoutDay : JsVal) (items : list (gmap string JsVal)) :
  createExerciseSequence workoutDay = Ok items ->
  array_map sequence_item (elements_of (prop workoutDay "exercises")) = Ok items
  ∨ (items = [] ∧ isArray (prop workoutDay "exercises") = false)
  ∨ (items = [] ∧ truthy workoutDay = false).
Proof.
  unfold createExerciseSequence. intros H.
  destruct (truthy workoutDay) eqn:Ht; simpl in H.
  - destruct (truthy (prop workoutDay "exercises")) eqn:He; simpl in H.
    + destruct (isArray (prop workoutDay "exercises")) eqn:Ha; simpl in H.
      * left. exact H.
      * right. left. inversion H. auto.
    + right. left. inversion H. split; [reflexivity|].
      destruct (prop workoutDay "exercises"); try reflexivity. discriminate.
  - right. right. inversion H. auto.
Qed.

(** C2 (amended): [createExerciseSequence] returns [[]] when the day is
    [null] or its [exercises] is not an array.  When [exercises] is an
    array whose exercises all have a string [name], it returns a list of the
    same length and in the same order, where the item of each exercise has
    [completed] false, [id] the name lowered with every run of whitespace
    replaced by one underscore, [sets] the exercise's or else 1 and [reps]
    the exercise's or else 10.  When one of the exercises has no string
    [name], the call throws; and whatever the call throws is a
    [TypeError]. *)
Theorem createExerciseSequence_spec (workoutDay : JsVal) :
  (workoutDay = VNull ∨ isArray (prop workoutDay "exercises") = false ->
   createExerciseSequence workoutDay = Ok [])
  ∧ (∀ exercises : list JsVal,
       prop workoutDay "exercises" = VArr exercises ->
       Forall has_name exercises ->
       ∃ items : list (gmap string JsVal),
         createExerciseSequence workoutDay = Ok items
         ∧ length items = length exercises
         ∧ ∀ (i : nat) (exercise : JsVal),
             exercises !! i = Some exercise ->
             ∃ (item : gmap string JsVal) (name : string),
               items !! i = Some item
               ∧ named exercise name
               ∧ item !! "name" = Some (VStr name)
               ∧ item !! "id" = Some (VStr (spec_id name))
               ∧ item !! "completed" = Some (VBool false)
               ∧ item !! "sets" = Some (js_or (prop exercise "sets") (VNum 1))
               ∧ item !! "reps" = Some (js_or (prop exercise "reps") (VNum 10)))
  ∧ (∀ (exercises : list JsVal) (exercise : JsVal),
       prop workoutDay "exercises" = VArr exercises ->
       exercise ∈ exercises ->
       ¬ has_name exercise ->
       is_thrown (createExerciseSequence workoutDay) = true)
  ∧ (∀ e : gmap string JsVal,
       createExerciseSequence workoutDay = Thrown e ->
       e !! "name" = Some (VStr "TypeError")).
Proof.
  split; [|split; [|split]].
  - intros [-> | Harr]; [reflexivity|].
    unfold createExerciseSequence. rewrite Harr.
    rewrite !orb_true_r. reflexivity.
  - intros exercises Hex Hnames.
    rewrite (createExerciseSequence_array _ _ Hex).
    destruct (array_map_total sequence_item exercises) as [items Hitems].
    { eapply Forall_impl; [exact Hnames|]. intros ex [name Hn].
      rewrite (sequence_item_named _ _ Hn). eauto. }
    exists items. split; [exact Hitems|].
    destruct (array_map_Ok_inv _ _ _ Hitems) as [Hlen Hnth].
    split; [exact Hlen|].
    intros i exercise Hi.
    assert (is_Some (items !! i)) as [item Hitem].
    { apply lookup_lt_is_Some. rewrite Hlen. eapply lookup_lt_Some. exact Hi. }
    destruct (Hnth _ _ Hitem) as (x & Hx & Hfx).
    assert (x = exercise) by congruence. subst x.
    apply sequence_item_Ok_inv in Hfx as (name & Hn & ->).
    eexists _, name. split; [exact Hitem|]. split; [exact Hn|].
    split; [reflexivity|]. split.
    { rewrite <- exercise_id_spec. reflexivity. }
    repeat split; reflexivity.
  - intros exercises exercise Hex Hin Hname.
    rewrite (createExerciseSequence_array _ _ Hex).
    eapply array_map_throws; [exact Hin|].
    apply sequence_item_unnamed. exact Hname.
  - intros e He.
    apply createExerciseSequence_Thrown_inv, array_map_Thrown_inv in He
      as (exercise & _ & He).
    eapply sequence_item_Thrown. exact He.
Qed.

Lemma createExerciseSequence_spec_witness :
  createExerciseSequence VNull = Ok []
  ∧ ∃ items : list (gmap string JsVal),
      createExerciseSequence sample_day = Ok items ∧ length items = 2%nat.
Proof.
  split.
  - apply (proj1 (createExerciseSequence_spec VNull)). left. reflexivity.
  - destruct (proj1 (proj2 (createExerciseSequence_spec sample_day)) _ eq_refl)
      as (items & H & Hlen & _).
    + repeat constructor; eexists; reflexivity.
    + exists items. split; [exact H | exact Hlen].
Defined.

(** C2, as stated, fails: the day is not [null], its [exercises] is an
    array, and the call throws instead of returning a list. *)
Lemma createExerciseSequence_unnamed_throws :
  unnamed_day ≠ VNull
  ∧ isArray (prop unnamed_day "exercises") = true
  ∧ ¬ ∃ items, createExerciseSequence unnamed_day = Ok items.
Proof.
  split; [discriminate|]. split; [reflexivity|].
  intros [items H]. vm_compute in H. discriminate.
Qed.

(** C9 (amended): every item of the returned list comes from the exercise
    at its index; when that exercise's [is_timed] is truthy the item's
    [target_duration] is the exercise's [reps] and its [target_reps] is
    [null], otherwise [target_reps] is the exercise's [reps] and
    [target_duration] is [null].  Hence exactly one of the two is not
    [null] when the exercise's [reps] is not [null], and both are [null]
    when it is. *)
Theorem target_fields_spec (workoutDay : JsVal) (items : list (gmap string JsVal))
    (i : nat) (item : gmap string JsVal) :
  createExerciseSequence workoutDay = Ok items ->
  items !! i = Some item ->
  ∃ exercise : JsVal,
    elements_of (prop workoutDay "exercises") !! i = Some exercise
    ∧ (if truthy (prop exercise "is_timed")
       then item !! "target_duration" = Some (prop exercise "reps")
            ∧ item !! "target_reps" = Some VNull
       else item !! "target_reps" = Some (prop exercise "reps")
            ∧ item !! "target_duration" = Some VNull)
    ∧ (prop exercise "reps" ≠ VNull -> exactly_one_target item)
    ∧ (prop exercise "reps" = VNull ->
       item !! "target_duration" = Some VNull ∧ item !! "target_reps" = Some VNull).
Proof.
  intros H Hitem.
  apply createExerciseSequence_Ok_inv in H as [H | [[-> _] | [-> _]]];
    [|destruct i; discriminate..].
  destruct (array_map_Ok_inv _ _ _ H) as [_ Hnth].
  destruct (Hnth _ _ Hitem) as (exercise & Hex & Hfx).
  apply sequence_item_Ok_inv in Hfx as (name & Hn & ->).
  exists exercise. split; [exact Hex|].
  unfold exactly_one_target, item_literal.
  destruct (truthy (prop exercise "is_timed")) eqn:Ht.
  - split; [split; reflexivity|]. split.
    + intros Hr. left. split; [exact Hr | reflexivity].
    + intros Hr. split; [|reflexivity]. simpl. rewrite <- Hr. reflexivity.
  - split; [split; reflexivity|]. split.
    + intros Hr. right. split; [reflexivity | exact Hr].
    + intros Hr. split; [reflexivity|]. simpl. rewrite <- Hr. reflexivity.
Qed.

Lemma target_fields_spec_witness :
  ∃ (items : list (gmap string JsVal)) (item : gmap string JsVal) (exercise : JsVal),
    createExerciseSequence sample_day = Ok items
    ∧ items !! 1%nat = Some item
    ∧ elements_of (prop sample_day "exercises") !! 1%nat = Some exercise
    ∧ item !! "target_duration" = Some (VNum 60)
    ∧ item !! "target_reps" = Some VNull
    ∧ exactly_one_target item.
Proof.
  eexists _, _.
  destruct (target_fields_spec sample_day _ 1%nat _ eq_refl eq_refl)
    as (exercise & Hex & Hfields & Hone & _).
  exists exercise. split; [reflexivity|]. split; [reflexivity|].
  split; [exact Hex|].
  simpl in Hex. inversion Hex; subst exercise; clear Hex.
  destruct Hfields as [Hd Hr].
  split; [exact Hd|]. split; [exact Hr|].
  apply Hone. discriminate.
Defined.

(** C9, as stated, fails: the call returns an item of which both
    [target_duration] and [target_reps] are [null]. *)
Lemma target_fields_both_null :
  ∃ (items : list (gmap string JsVal)) (item : gmap string JsVal),
    createExerciseSequence plank_day = Ok items
    ∧ item ∈ items
    ∧ ¬ exactly_one_target item.
Proof.
  eexists _, _. split; [reflexivity|]. split; [apply list_elem_of_here|].
  intros [[H _] | [_ H]]; apply H; reflexivity.
Qed.

(* ===================================================================== *)
(** ** [workoutReducer]                                                   *)
(* ===================================================================== *)

Lemma or_zero_default (n : option Z) : or_zero n = default 0 n.
Proof.
  destruct n as [n|]; simpl; [|reflexivity].
  destruct (Z.eqb_spec n 0); congruence.
Qed.

Lemma item_at_valid (sequence : list (gmap string JsVal)) (i : Z) :
  valid_index sequence i ->
  ∃ item, item_at sequence i = Some item ∧ sequence !! Z.to_nat i = Some item.
Proof.
  intros [H0 Hlt]. unfold item_at.
  destruct (Z.ltb_spec i 0) as [|_]; [lia|].
  destruct (lookup_lt_is_Some_2 sequence (Z.to_nat i)) as [item Hitem]; [lia|].
  eauto.
Qed.

Lemma item_at_out_of_range (sequence : list (gmap string JsVal)) (i : Z) :
  ¬ valid_index sequence i -> item_at sequence i = None.
Proof.
  intros H. unfold item_at, valid_index in *.
  destruct (Z.ltb_spec i 0) as [|H0]; [reflexivity|].
  apply lookup_ge_None. lia.
Qed.

Lemma action_type_known (a : Action) :
  action_type a ∉ ActionTypes -> ∃ type payload, a = OTHER type payload.
Proof.
  intros H. destruct a; eauto; exfalso; apply H; unfold ActionTypes; simpl;
    repeat (first [apply list_elem_of_here | apply list_elem_of_further]).
Qed.

(** C3: for the action types [SET_CURRENT_WORKOUT], [SET_EXERCISE_SEQUENCE],
    [SET_CURRENT_EXERCISE], [SET_LOADING] and [SET_ERROR] the reducer leaves
    every field of the state unchanged except the ones designated for the
    type, and an action of a type that is none of [ActionTypes] returns the
    state unchanged. *)
Theorem workoutReducer_frame (now : string) (state : State) (action : Action) :
  (∀ fields : list Field,
     designated action = Some fields ->
     ∀ f : Field, f ∉ fields -> same_field f state (workoutReducer now state action))
  ∧ (action_type action ∉ ActionTypes -> workoutReducer now state action = state).
Proof.
  split.
  - intros fields Hd f Hf.
    destruct action; simpl in Hd; inversion Hd; subst; clear Hd;
      destruct f; simpl; try reflexivity;
      exfalso; apply Hf;
      repeat (first [apply list_elem_of_here | apply list_elem_of_further]).
  - intros H. apply action_type_known in H as (type & payload & ->). reflexivity.
Qed.

Lemma workoutReducer_frame_witness :
  same_field FsessionStats sample_state
    (workoutReducer "now" sample_state (SET_ERROR (VStr "boom")))
  ∧ workoutReducer "now" sample_state (OTHER "PING" VNull) = sample_state.
Proof.
  split.
  - apply (proj1 (workoutReducer_frame "now" sample_state (SET_ERROR (VStr "boom")))
             [Ferror; FisLoading] eq_refl FsessionStats).
    apply (bool_decide_unpack _). vm_compute. exact I.
  - apply (proj2 (workoutReducer_frame "now" sample_state (OTHER "PING" VNull))).
    apply (bool_decide_unpack _). vm_compute. exact I.
Defined.

Lemma complete_item_length (sequence : list (gmap string JsVal)) (i : Z)
    (stats : ExerciseStats) :
  length (complete_item sequence i stats) = length sequence.
Proof.
  unfold complete_item. destruct (item_at sequence i); [|reflexivity].
  apply length_insert.
Qed.

Lemma complete_item_out_of_range (sequence : list (gmap string JsVal)) (i : Z)
    (stats : ExerciseStats) :
  ¬ valid_index sequence i -> complete_item sequence i stats = sequence.
Proof.
  intros H. unfold complete_item. rewrite (item_at_out_of_range _ _ H). reflexivity.
Qed.

(** C4: a [COMPLETE_EXERCISE] action with a valid [exerciseIndex] gives a
    state whose sequence item at that index is the former item with
    [completed] set to true and [results] set to the action's stats (its
    other properties kept), every other item of the sequence unchanged, and
    whose [sessionStats] has [completedExercises] incremented by 1,
    [totalReps] by [stats.repCount] and [totalDuration] by
    [stats.duration], each 0 when absent. *)
Theorem complete_exercise_valid (now : string) (state : State) (exerciseIndex : Z)
    (stats : ExerciseStats) :
  valid_index (exerciseSequence state) exerciseIndex ->
  let state' := workoutReducer now state (COMPLETE_EXERCISE exerciseIndex stats) in
  (∃ item item' : gmap string JsVal,
      exerciseSequence state !! Z.to_nat exerciseIndex = Some item
      ∧ exerciseSequence state' !! Z.to_nat exerciseIndex = Some item'
      ∧ item' !! "completed" = Some (VBool true)
      ∧ item' !! "results" = Some (stats_object stats)
      ∧ ∀ k : string, k ≠ "completed" -> k ≠ "results" -> item' !! k = item !! k)
  ∧ length (exerciseSequence state') = length (exerciseSequence state)
  ∧ (∀ j : nat, j ≠ Z.to_nat exerciseIndex ->
       exerciseSequence state' !! j = exerciseSequence state !! j)
  ∧ completedExercises (sessionStats state')
    = completedExercises (sessionStats state) + 1
  ∧ totalReps (sessionStats state')
    = totalReps (sessionStats state) + default 0 (repCount stats)
  ∧ totalDuration (sessionStats state')
    = totalDuration (sessionStats state) + default 0 (duration stats).
Proof.
  intros Hvalid state'. subst state'. simpl.
  destruct (item_at_valid _ _ Hvalid) as (item & Hat & Hlook).
  assert (Hlt : (Z.to_nat exerciseIndex < length (exerciseSequence state))%nat)
    by (eapply lookup_lt_Some; exact Hlook).
  unfold complete_item. rewrite Hat.
  split; [|split; [|split; [|split; [|split]]]].
  - exists item, (<["results" := stats_object stats]> (<["completed" := VBool true]> item)).
    split; [exact Hlook|]. split; [apply list_lookup_insert_eq; exact Hlt|].
    split; [|split].
    + rewrite lookup_insert_ne by discriminate. apply lookup_insert_eq.
    + apply lookup_insert_eq.
    + intros k Hc Hr. rewrite !lookup_insert_ne by congruence. reflexivity.
  - apply length_insert.
  - intros j Hj. apply list_lookup_insert_ne. congruence.
  - reflexivity.
  - rewrite or_zero_default. reflexivity.
  - rewrite or_zero_default. reflexivity.
Qed.

Lemma complete_exercise_valid_witness :
  let state' := workoutReducer "now" sample_state (COMPLETE_EXERCISE 1 sample_stats) in
  (∃ item item' : gmap string JsVal,
      exerciseSequence sample_state !! 1%nat = Some item
      ∧ exerciseSequence state' !! 1%nat = Some item'
      ∧ item' !! "completed" = Some (VBool true)
      ∧ item' !! "results" = Some (stats_object sample_stats)
      ∧ ∀ k : string, k ≠ "completed" -> k ≠ "results" -> item' !! k = item !! k)
  ∧ length (exerciseSequence state') = 2%nat
  ∧ (∀ j : nat, j ≠ 1%nat ->
       exerciseSequence state' !! j = exerciseSequence sample_state !! j)
  ∧ completedExercises (sessionStats state') = 1
  ∧ totalReps (sessionStats state') = 12
  ∧ totalDuration (sessionStats state') = 0.
Proof.
  apply (complete_exercise_valid "now" sample_state 1 sample_stats).
  unfold valid_index. simpl. lia.
Defined.

(** C10: a [COMPLETE_EXERCISE] action whose [exerciseIndex] is out of range
    (the initial index -1 included) leaves the sequence unchanged and still
    increments [completedExercises] by 1 and [totalReps] and [totalDuration]
    by the stats values; so [completedExercises] can exceed the number of
    items marked completed; and [completeCurrentExercise] does nothing when
    the current index is below 0, but dispatches the action when the index
    is at or beyond the length of the sequence. *)
Theorem complete_exercise_out_of_range (now : string) (state : State)
    (stats : ExerciseStats) :
  (∀ exerciseIndex : Z,
     ¬ valid_index (exerciseSequence state) exerciseIndex ->
     let state' := workoutReducer now state (COMPLETE_EXERCISE exerciseIndex stats) in
     exerciseSequence state' = exerciseSequence state
     ∧ completedExercises (sessionStats state')
       = completedExercises (sessionStats state) + 1
     ∧ totalReps (sessionStats state')
       = totalReps (sessionStats state) + default 0 (repCount stats)
     ∧ totalDuration (sessionStats state')
       = totalDuration (sessionStats state) + default 0 (duration stats))
  ∧ ¬ valid_index (exerciseSequence initialState) (currentExerciseIndex initialState)
  ∧ (let state' := workoutReducer now initialState (COMPLETE_EXERCISE (-1) stats) in
     completed_count (exerciseSequence state')
     < completedExercises (sessionStats state'))
  ∧ (currentExerciseIndex state < 0 ->
     completeCurrentExercise now state stats = state)
  ∧ (Z.of_nat (length (exerciseSequence state)) <= currentExerciseIndex state ->
     completeCurrentExercise now state stats
     = workoutReducer now state
         (COMPLETE_EXERCISE (currentExerciseIndex state) stats)
     ∧ exerciseSequence (completeCurrentExercise now state stats)
       = exerciseSequence state
     ∧ completedExercises (sessionStats (completeCurrentExercise now state stats))
       = completedExercises (sessionStats state) + 1).
Proof.
  split; [|split; [|split; [|split]]].
  - intros exerciseIndex Hout state'. subst state'. simpl.
    rewrite (complete_item_out_of_range _ _ _ Hout), !or_zero_default. auto.
  - unfold valid_index. simpl. lia.
  - simpl. reflexivity.
  - intros Hneg. unfold completeCurrentExercise.
    destruct (Z.leb_spec 0 (currentExerciseIndex state)); [lia | reflexivity].
  - intros Hge. unfold completeCurrentExercise.
    destruct (Z.leb_spec 0 (currentExerciseIndex state)); [|lia].
    split; [reflexivity|]. simpl.
    rewrite complete_item_out_of_range by (unfold valid_index; lia). auto.
Qed.

Lemma complete_exercise_out_of_range_witness :
  exerciseSequence
    (workoutReducer "now" sample_state (COMPLETE_EXERCISE 2 sample_stats))
  = sample_sequence
  ∧ completedExercises
      (sessionStats (workoutReducer "now" sample_state (COMPLETE_EXERCISE 2 sample_stats)))
    = 1
  ∧ completeCurrentExercise "now" initialState sample_stats = initialState
  ∧ completedExercises
      (sessionStats
         (completeCurrentExercise "now" (setCurrentExercise "now" sample_state 5)
                                  sample_stats))
    = 1.
Proof.
  pose proof (complete_exercise_out_of_range "now" sample_state sample_stats)
    as (Hred & _).
  destruct (Hred 2) as (Hseq & Hcount & _); [unfold valid_index; simpl; lia|].
  split; [exact Hseq|]. split; [exact Hcount|].
  split.
  - apply (complete_exercise_out_of_range "now" initialState sample_stats). simpl. lia.
  - apply (complete_exercise_out_of_range "now"
             (setCurrentExercise "now" sample_state 5) sample_stats).
    simpl. lia.
Defined.

(* ===================================================================== *)
(** ** [fetchApi]                                                         *)
(* ===================================================================== *)

Section ApiFacts.

Variable JSON_stringify : JsVal -> string.
Variable REACT_APP_API_URL : option string.

Local Abbreviation fetchApi := (Api.fetchApi JSON_stringify REACT_APP_API_URL).
Local Abbreviation request_url := (Api.request_url REACT_APP_API_URL).
Local Abbreviation request_config := (Api.request_config JSON_stringify).

Lemma run_fetchApi_log (net : Network) (n : nat) (endpoint : string)
    (options : gmap string JsVal) :
  (run net n (fetchApi endpoint options)).1
  = [(request_url endpoint, request_config options)].
Proof.
  unfold Api.fetchApi, try_block, await_fetch. simpl.
  destruct (net n _ _) as [response|e]; simpl; [|reflexivity].
  destruct (ok response); simpl.
  - destruct (read_body response); reflexivity.
  - destruct (http_error response); reflexivity.
Qed.

Lemma run_fetchApi_rejected (net : Network) (n : nat) (endpoint : string)
    (options e : gmap string JsVal) :
  net n (request_url endpoint) (request_config options) = Thrown e ->
  (run net n (fetchApi endpoint options)).2
  = Thrown (annotate endpoint (request_url endpoint) (request_config options) e).
Proof.
  intros H. unfold Api.fetchApi, try_block, await_fetch. simpl. rewrite H. reflexivity.
Qed.

Lemma run_fetchApi_not_ok (net : Network) (n : nat) (endpoint : string)
    (options : gmap string JsVal) (response : Response) :
  net n (request_url endpoint) (request_config options) = Ok response ->
  ok response = false ->
  (run net n (fetchApi endpoint options)).2
  = Thrown (annotate endpoint (request_url endpoint) (request_config options)
              match http_error response with Ok e => e | Thrown e => e end).
Proof.
  intros H Hok. unfold Api.fetchApi, try_block, await_fetch. simpl.
  rewrite H, Hok. simpl. destruct (http_error response); reflexivity.
Qed.

Lemma run_fetchApi_ok (net : Network) (n : nat) (endpoint : string)
    (options : gmap string JsVal) (response : Response) :
  net n (request_url endpoint) (request_config options) = Ok response ->
  ok response = true ->
  (run net n (fetchApi endpoint options)).2
  = match read_body response with
    | Ok v => Ok v
    | Thrown e =>
        Thrown (annotate endpoint (request_url endpoint) (request_config options) e)
    end.
Proof.
  intros H Hok. unfold Api.fetchApi, try_block, await_fetch. simpl.
  rewrite H, Hok. simpl. destruct (read_body response); reflexivity.
Qed.

Lemma annotate_endpoint (endpoint url : string) (config e : gmap string JsVal) :
  annotate endpoint url config e !! "endpoint" = Some (VStr endpoint).
Proof.
  unfold annotate. rewrite lookup_insert_ne by discriminate. apply lookup_insert_eq.
Qed.

Lemma annotate_request (endpoint url : string) (config e : gmap string JsVal) :
  annotate endpoint url config e !! "request"
  = Some (VObj (request_details url config)).
Proof. unfold annotate. apply lookup_insert_eq. Qed.

Lemma annotate_other (endpoint url : string) (config e : gmap string JsVal)
    (k : string) :
  k ≠ "endpoint" -> k ≠ "request" ->
  annotate endpoint url config e !! k = e !! k.
Proof.
  intros H1 H2. unfold annotate. rewrite !lookup_insert_ne by congruence. reflexivity.
Qed.

(** What the [catch] block does to the error it rethrows. *)
Lemma annotate_rethrown (endpoint url : string) (config e0 : gmap string JsVal) :
  annotate endpoint url config e0 !! "endpoint" = Some (VStr endpoint)
  ∧ annotate endpoint url config e0 !! "request"
    = Some (VObj (config ∪ {[ "url" := VStr url ]}))
  ∧ ∀ k : string,
      k ≠ "endpoint" -> k ≠ "request" ->
      annotate endpoint url config e0 !! k = e0 !! k.
Proof.
  split; [apply annotate_endpoint|]. split; [apply annotate_request|].
  intros k. apply annotate_other.
Qed.

(** Every error [fetchApi] throws carries the endpoint and the request. *)
Lemma fetchApi_thrown_annotated (net : Network) (n : nat) (endpoint : string)
    (options e : gmap string JsVal) :
  (run net n (fetchApi endpoint options)).2 = Thrown e ->
  ∃ e0, e = annotate endpoint (request_url endpoint) (request_config options) e0.
Proof.
  destruct (net n (request_url endpoint) (request_config options))
    as [response|e0] eqn:Hnet.
  - destruct (ok response) eqn:Hok.
    + rewrite (run_fetchApi_ok _ _ _ _ _ Hnet Hok).
      destruct (read_body response); intros H; inversion H. eauto.
    + rewrite (run_fetchApi_not_ok _ _ _ _ _ Hnet Hok).
      intros H; inversion H. eauto.
  - rewrite (run_fetchApi_rejected _ _ _ _ _ Hnet). intros H; inversion H. eauto.
Qed.

End ApiFacts.

Section ApiClaims.

Variable JSON_stringify : JsVal -> string.
Variable REACT_APP_API_URL : option string.

Local Abbreviation fetchApi := (Api.fetchApi JSON_stringify REACT_APP_API_URL).
Local Abbreviation request_url := (Api.request_url REACT_APP_API_URL).
Local Abbreviation request_config := (Api.request_config JSON_stringify).

(** [errorData] is the parsed body, or [{ error: statusText }] when the
    body is not JSON. *)
Lemma errorData_cases (response : Response) :
  (∀ d, json response = Ok d -> errorData response = d)
  ∧ (∀ x, json response = Thrown x ->
       errorData response = VObj {[ "error" := VStr (statusText response) ]}).
Proof.
  unfold errorData. split; intros ? ->; reflexivity.
Qed.

(** The message of the error: a non-empty string [error] is the message,
    a falsy or missing [error] gives the fixed text. *)
Lemma error_message_cases (field : JsVal) :
  (∀ s, field = VStr s -> s ≠ "" ->
     js_toString (js_or field (VStr "API request failed")) = s)
  ∧ (truthy field = false ->
     js_toString (js_or field (VStr "API request failed")) = "API request failed").
Proof.
  split.
  - intros s -> Hs. unfold js_or. simpl.
    destruct (String.eqb_spec s ""); [contradiction | reflexivity].
  - intros Hf. unfold js_or. rewrite Hf. reflexivity.
Qed.

(** C1 (amended): when the response is not ok and its parsed body is not
    [null], [fetchApi] throws an [Error] whose message is the string form of
    [errorData.error] when that is truthy and ['API request failed']
    otherwise, where [errorData] is the parsed body, or
    [{ error: statusText }] when the body is not JSON; the error carries
    [status], [statusText] and [errorData] as [data].  Every error thrown,
    for an HTTP failure, a rejected fetch or a body that fails to parse,
    carries [endpoint] and [request], the url and the config. *)
Theorem fetchApi_errors (net : Network) (n : nat) (endpoint : string)
    (options : gmap string JsVal) :
  (∀ response : Response,
     net n (request_url endpoint) (request_config options) = Ok response ->
     ok response = false ->
     nullish (errorData response) = false ->
     ∃ e : gmap string JsVal,
       (run net n (fetchApi endpoint options)).2 = Thrown e
       ∧ e !! "name" = Some (VStr "Error")
       ∧ e !! "message"
         = Some (VStr (js_toString (js_or (prop (errorData response) "error")
                                          (VStr "API request failed"))))
       ∧ e !! "status" = Some (VNum (status response))
       ∧ e !! "statusText" = Some (VStr (statusText response))
       ∧ e !! "data" = Some (errorData response))
  ∧ (∀ e : gmap string JsVal,
       (run net n (fetchApi endpoint options)).2 = Thrown e ->
       e !! "endpoint" = Some (VStr endpoint)
       ∧ e !! "request"
         = Some (VObj (request_details (request_url endpoint) (request_config options))))
  ∧ (∀ e0 : gmap string JsVal,
       net n (request_url endpoint) (request_config options) = Thrown e0 ->
       ∃ e : gmap string JsVal,
         (run net n (fetchApi endpoint options)).2 = Thrown e
         ∧ ∀ k : string, k ≠ "endpoint" -> k ≠ "request" -> e !! k = e0 !! k).
Proof.
  split; [|split].
  - intros response Hnet Hok Hnn.
    rewrite (run_fetchApi_not_ok _ _ _ _ _ _ _ Hnet Hok).
    eexists. split; [reflexivity|].
    unfold http_error.
    assert (js_get (errorData response) "error"
            = Ok (prop (errorData response) "error")) as ->.
    { destruct (errorData response); try discriminate; reflexivity. }
    simpl. rewrite !annotate_other by discriminate.
    repeat split.
  - intros e He.
    apply fetchApi_thrown_annotated in He as [e0 ->].
    split; [apply annotate_endpoint | apply annotate_request].
  - intros e0 Hnet.
    rewrite (run_fetchApi_rejected _ _ _ _ _ _ _ Hnet).
    eexists. split; [reflexivity|]. intros k. apply annotate_other.
Qed.

(** C5 (amended): for a response that is ok, [fetchApi] returns [null]
    when the status is 204 or the [content-length] header is ['0'];
    otherwise, when the [content-type] header contains ['application/json'],
    it returns the parsed body if the body parses as JSON, and throws the
    parse error, annotated, if it does not; otherwise it returns the body
    text. *)
Theorem fetchApi_success (net : Network) (n : nat) (endpoint : string)
    (options : gmap string JsVal) (response : Response) :
  net n (request_url endpoint) (request_config options) = Ok response ->
  ok response = true ->
  let result := (run net n (fetchApi endpoint options)).2 in
  (empty_response response -> result = Ok VNull)
  ∧ (¬ empty_response response -> json_content_type response ->
     (∀ v, json response = Ok v -> result = Ok v)
     ∧ (∀ e, json response = Thrown e ->
          result = Thrown (annotate endpoint (request_url endpoint)
                             (request_config options) e)))
  ∧ (¬ empty_response response -> ¬ json_content_type response ->
     result = Ok (VStr (text response))).
Proof.
  intros Hnet Hok result. subst result.
  rewrite (run_fetchApi_ok _ _ _ _ _ _ _ Hnet Hok).
  unfold read_body, empty_response, json_content_type.
  split; [|split].
  - intros [H | H].
    + rewrite H. reflexivity.
    + rewrite H. rewrite bool_decide_eq_true_2 by reflexivity.
      rewrite orb_true_r. reflexivity.
  - intros Hne (ct & Hct & Hinc). apply includes_contains in Hinc.
    destruct (Z.eqb_spec (status response) 204) as [H|_]; [tauto|].
    rewrite bool_decide_eq_false_2 by tauto. simpl.
    rewrite Hct.
    assert (ct ≠ "") as Hnonempty by (intros ->; discriminate).
    destruct (String.eqb_spec ct ""); [contradiction|]. simpl. rewrite Hinc.
    split; intros ? ->; reflexivity.
  - intros Hne Hnj.
    destruct (Z.eqb_spec (status response) 204) as [H|_]; [tauto|].
    rewrite bool_decide_eq_false_2 by tauto. simpl.
    destruct (headers_get (headers response) "content-type") as [ct|]; [|reflexivity].
    destruct (includes "application/json" ct) eqn:Hinc.
    + exfalso. apply Hnj. exists ct. split; [reflexivity|].
      apply includes_contains. exact Hinc.
    + rewrite andb_false_r. reflexivity.
Qed.

(** C7: whatever the network does, one call of [fetchApi] makes exactly
    one request, the one for its url and config; so do the verb wrappers;
    and when the call throws, the error is the annotated one and the
    request is still the only one.  Every failure makes the call throw: a
    rejected fetch rethrows the error of the fetch, a response that is not
    ok throws the error built for it, and a body that cannot be read
    rethrows the error of the read; each time the error thrown is that
    error with [endpoint] set to the endpoint and [request] to
    [{ url, ...config }], its other properties kept.  The call returns a
    value only for a response that is ok and whose body was read, and then
    returns that body. *)
Theorem fetchApi_single_request (net : Network) (n : nat) (endpoint : string)
    (options : gmap string JsVal) (data : JsVal) :
  let settled := net n (request_url endpoint) (request_config options) in
  let result := (run net n (fetchApi endpoint options)).2 in
  let annotated := fun e0 e : gmap string JsVal =>
    e !! "endpoint" = Some (VStr endpoint)
    ∧ e !! "request"
      = Some (VObj (request_config options ∪ {[ "url" := VStr (request_url endpoint) ]}))
    ∧ ∀ k : string, k ≠ "endpoint" -> k ≠ "request" -> e !! k = e0 !! k in
  (run net n (fetchApi endpoint options)).1
  = [(request_url endpoint, request_config options)]
  ∧ length (run net n (Api.get JSON_stringify REACT_APP_API_URL endpoint options)).1 = 1%nat
  ∧ length (run net n (Api.post JSON_stringify REACT_APP_API_URL endpoint data options)).1 = 1%nat
  ∧ length (run net n (Api.put JSON_stringify REACT_APP_API_URL endpoint data options)).1 = 1%nat
  ∧ length (run net n (Api.patch JSON_stringify REACT_APP_API_URL endpoint data options)).1 = 1%nat
  ∧ length (run net n (Api.del JSON_stringify REACT_APP_API_URL endpoint options)).1 = 1%nat
  ∧ (∀ e : gmap string JsVal,
       (run net n (fetchApi endpoint options)).2 = Thrown e ->
       length (run net n (fetchApi endpoint options)).1 = 1%nat
       ∧ ∃ e0, e = annotate endpoint (request_url endpoint) (request_config options) e0)
  ∧ (∀ e0 : gmap string JsVal,
       settled = Thrown e0 ->
       ∃ e : gmap string JsVal, result = Thrown e ∧ annotated e0 e)
  ∧ (∀ response : Response,
       settled = Ok response ->
       ok response = false ->
       ∃ e0 e : gmap string JsVal,
         (http_error response = Ok e0 ∨ http_error response = Thrown e0)
         ∧ result = Thrown e ∧ annotated e0 e)
  ∧ (∀ (response : Response) (e0 : gmap string JsVal),
       settled = Ok response ->
       ok response = true ->
       read_body response = Thrown e0 ->
       ∃ e : gmap string JsVal, result = Thrown e ∧ annotated e0 e)
  ∧ (∀ (response : Response) (v : JsVal),
       settled = Ok response ->
       ok response = true ->
       read_body response = Ok v ->
       result = Ok v)
  ∧ (∀ v : JsVal,
       result = Ok v ->
       ∃ response : Response,
         settled = Ok response ∧ ok response = true ∧ read_body response = Ok v).
Proof.
  cbv zeta.
  split; [apply run_fetchApi_log|].
  unfold Api.get, Api.post, Api.put, Api.patch, Api.del.
  rewrite !run_fetchApi_log.
  do 5 (split; [reflexivity|]).
  split.
  { intros e He. split; [reflexivity|].
    eapply fetchApi_thrown_annotated. exact He. }
  split.
  { intros e0 Hnet. rewrite (run_fetchApi_rejected _ _ _ _ _ _ _ Hnet).
    eexists. split; [reflexivity | apply annotate_rethrown]. }
  split.
  { intros response Hnet Hok.
    rewrite (run_fetchApi_not_ok _ _ _ _ _ _ _ Hnet Hok).
    destruct (http_error response) as [e0|e0]; exists e0; eexists;
      (split; [auto|]); (split; [reflexivity | apply annotate_rethrown]). }
  split.
  { intros response e0 Hnet Hok Hbody.
    rewrite (run_fetchApi_ok _ _ _ _ _ _ _ Hnet Hok), Hbody.
    eexists. split; [reflexivity | apply annotate_rethrown]. }
  split.
  { intros response v Hnet Hok Hbody.
    rewrite (run_fetchApi_ok _ _ _ _ _ _ _ Hnet Hok), Hbody. reflexivity. }
  intros v.
  destruct (net n (request_url endpoint) (request_config options))
    as [response|e0] eqn:Hnet.
  - destruct (ok response) eqn:Hok.
    + rewrite (run_fetchApi_ok _ _ _ _ _ _ _ Hnet Hok).
      destruct (read_body response) as [v0|e0] eqn:Hbody; [|discriminate].
      intros H. inversion H; subst. exists response. auto.
    + rewrite (run_fetchApi_not_ok _ _ _ _ _ _ _ Hnet Hok). discriminate.
  - rewrite (run_fetchApi_rejected _ _ _ _ _ _ _ Hnet). discriminate.
Qed.

End ApiClaims.

Lemma fetchApi_errors_witness :
  ∃ e : gmap string JsVal,
    (run (always not_found) 0
       (fetchApi sample_stringify None "workout/plans/7" ∅)).2 = Thrown e
    ∧ e !! "name" = Some (VStr "Error")
    ∧ e !! "message" = Some (VStr "No such plan")
    ∧ e !! "status" = Some (VNum 404)
    ∧ e !! "statusText" = Some (VStr "Not Found")
    ∧ e !! "data" = Some (VObj {[ "error" := VStr "No such plan" ]}).
Proof.
  apply (proj1 (fetchApi_errors sample_stringify None (always not_found) 0
                  "workout/plans/7" ∅) not_found);
    reflexivity.
Defined.

(** C1, as stated, fails: the response is not ok and its body is not JSON,
    and the message of the error thrown is not the status text. *)
Lemma fetchApi_message_not_status_text :
  ok bad_gateway = false
  ∧ is_thrown (json bad_gateway) = true
  ∧ ∃ e : gmap string JsVal,
      (run (always bad_gateway) 0
         (fetchApi sample_stringify None "video/status" ∅)).2 = Thrown e
      ∧ e !! "message" = Some (VStr "API request failed")
      ∧ e !! "message" ≠ Some (VStr (statusText bad_gateway)).
Proof.
  split; [reflexivity|]. split; [reflexivity|].
  eexists. split; [reflexivity|]. split; [reflexivity|].
  intros H. vm_compute in H. discriminate.
Qed.

(** A response that is not ok and whose body is the JSON value [null]: the
    error thrown is the [TypeError] of reading [errorData.error]; it is
    annotated with the endpoint and has no [status]. *)
Lemma fetchApi_null_body :
  ∃ e : gmap string JsVal,
    (run (always null_failure) 0
       (fetchApi sample_stringify None "video/status" ∅)).2 = Thrown e
    ∧ e !! "name" = Some (VStr "TypeError")
    ∧ e !! "endpoint" = Some (VStr "video/status")
    ∧ e !! "status" = None
    ∧ e !! "data" = None.
Proof.
  eexists. split; [reflexivity|]. repeat split; reflexivity.
Qed.

Lemma fetchApi_success_witness :
  (run (always plans_found) 0
     (fetchApi sample_stringify None "workout/plans" ∅)).2
  = Ok (VObj {[ "success" := VBool true ]}).
Proof.
  apply (proj1 (proj1 (proj2 (fetchApi_success sample_stringify None (always plans_found) 0
                         "workout/plans" ∅ plans_found eq_refl eq_refl))
                  ltac:(unfold empty_response; simpl; intros [H|H]; discriminate)
                  ltac:(eexists; split; [reflexivity|];
                        exists "", "; charset=utf-8"; reflexivity))).
  reflexivity.
Defined.

(** C5, as stated, fails: the response is ok, is not empty and announces
    JSON, and [fetchApi] throws instead of returning. *)
Lemma fetchApi_mislabelled_throws :
  ok mislabelled = true
  ∧ ¬ empty_response mislabelled
  ∧ json_content_type mislabelled
  ∧ ¬ ∃ v : JsVal,
        (run (always mislabelled) 0
           (fetchApi sample_stringify None "workout/plans" ∅)).2 = Ok v.
Proof.
  split; [reflexivity|]. split; [|split].
  - intros [H|H]; discriminate.
  - eexists. split; [reflexivity|]. exists "", "". reflexivity.
  - intros [v H]. vm_compute in H. discriminate.
Qed.

Example fetchApi_no_content :
  (run (always no_content) 0
     (fetchApi sample_stringify None "workout/plans/7" {[ "method" := VStr "DELETE" ]})).2
  = Ok VNull.
Proof. reflexivity. Qed.

Example fetchApi_plain_text :
  (run (always plain_text) 0 (fetchApi sample_stringify None "ping" ∅)).2
  = Ok (VStr "pong").
Proof. reflexivity. Qed.

Example headers_get_case :
  headers_get [("Content-Length", "0"); ("X-Trace", "a"); ("x-trace", "b")] "content-length"
  = Some "0"
  ∧ headers_get [("Content-Length", "0"); ("X-Trace", "a"); ("x-trace", "b")] "X-TRACE"
    = Some "a, b"
  ∧ headers_get [("Content-Length", "0")] "content-type" = None.
Proof. repeat split; reflexivity. Qed.

Example post_serialises_body :
  (run offline 0
     (post sample_stringify None "exercise/start"
           (VObj {[ "exercise" := VStr "squat" ]}) ∅)).1
  = [("/api/exercise/start",
      {[ "method" := VStr "POST";
         "body" := VStr "{}";
         "headers" := VObj {[ "Content-Type" := VStr "application/json" ]} ]})].
Proof. reflexivity. Qed.

Example common_feedback_url :
  (run offline 0
     (getCommonFeedback sample_stringify None
        {[ "exercise" := VStr "bicep curl"; "period" := VStr "week" ]})).1.*1
  = ["/api/exercise/common_feedback?exercise=bicep+curl&period=week"].
Proof. reflexivity. Qed.

Lemma fetchApi_single_request_witness :
  (length (run offline 0 (fetchApi sample_stringify None "video/status" ∅)).1 = 1%nat
   ∧ ∃ e0,
       annotate "video/status" "/api/video/status" (request_config sample_stringify ∅)
                (TypeError "Failed to fetch")
       = annotate "video/status" (request_url None "video/status")
                  (request_config sample_stringify ∅) e0)
  ∧ ∃ e : gmap string JsVal,
      (run offline 0 (fetchApi sample_stringify None "video/status" ∅)).2 = Thrown e
      ∧ e !! "endpoint" = Some (VStr "video/status")
      ∧ e !! "request"
        = Some (VObj (request_config sample_stringify ∅
                        ∪ {[ "url" := VStr "/api/video/status" ]}))
      ∧ e !! "name" = Some (VStr "TypeError")
      ∧ e !! "message" = Some (VStr "Failed to fetch").
Proof.
  destruct (fetchApi_single_request sample_stringify None offline 0
              "video/status" ∅ VNull)
    as (_ & _ & _ & _ & _ & _ & Hthrown & Hrejected & _).
  split.
  - apply Hthrown. reflexivity.
  - destruct (Hrejected (TypeError "Failed to fetch") eq_refl)
      as (e & He & Hendpoint & Hrequest & Hkept).
    exists e. split; [exact He|]. split; [exact Hendpoint|].
    split; [exact Hrequest|].
    split; (rewrite Hkept by discriminate; reflexivity).
Defined.

(* ===================================================================== *)
(** ** The request URL and the service endpoints                          *)
(* ===================================================================== *)

Lemma startsWith_slash (endpoint : string) :
  startsWith "/" endpoint = true -> endpoint = "/" +:+ strip_leading_slash endpoint.
Proof.
  destruct endpoint as [|c rest]; [discriminate|].
  destruct c as [[] [] [] [] [] [] [] []];
    first [ intros _; reflexivity | intros H; destruct rest; discriminate H ].
Qed.

Lemma not_startsWith_slash (endpoint : string) :
  startsWith "/" endpoint = false -> strip_leading_slash endpoint = endpoint.
Proof.
  destruct endpoint as [|c rest]; [reflexivity|].
  destruct c as [[] [] [] [] [] [] [] []];
    first [ intros _; reflexivity | intros H; destruct rest; discriminate H ].
Qed.

Lemma request_url_normal (env : option string) (endpoint : string) :
  request_url env endpoint = API_BASE_URL env +:+ "/" +:+ strip_leading_slash endpoint.
Proof.
  unfold request_url. destruct (startsWith "/" endpoint) eqn:H.
  - rewrite (startsWith_slash _ H) at 1. reflexivity.
  - rewrite (not_startsWith_slash _ H). reflexivity.
Qed.

(** C6 (amended): the URL [fetchApi] requests is [API_BASE_URL], a slash,
    and the endpoint without its one leading slash, if it has one; so for an
    endpoint that does not start with a slash, [fetchApi(e)] and
    [fetchApi('/' + e)] request the same URL.  With [REACT_APP_API_URL]
    unset the base is ['/api'], every request of the video service is for a
    path under ['/api/video/'] and every request of the exercise service for
    a path under ['/api/exercise/']. *)
Theorem request_url_spec (JSON_stringify : JsVal -> string)
    (REACT_APP_API_URL : option string) (net : Network) (n : nat)
    (endpoint : string) (options : gmap string JsVal) :
  (run net n (fetchApi JSON_stringify REACT_APP_API_URL endpoint options)).1.*1
  = [API_BASE_URL REACT_APP_API_URL +:+ "/" +:+ strip_leading_slash endpoint]
  ∧ (startsWith "/" endpoint = false ->
     (run net n (fetchApi JSON_stringify REACT_APP_API_URL ("/" +:+ endpoint) options)).1.*1
     = (run net n (fetchApi JSON_stringify REACT_APP_API_URL endpoint options)).1.*1)
  ∧ API_BASE_URL None = "/api"
  ∧ (∀ (c : VideoCall) (url : string),
       url ∈ (run net n (video_call JSON_stringify None c)).1.*1 ->
       startsWith "/api/video/" url = true)
  ∧ startsWith "/api/video/" getVideoFeedUrl = true
  ∧ (∀ (c : ExerciseCall) (url : string),
       url ∈ (run net n (exercise_call JSON_stringify None c)).1.*1 ->
       startsWith "/api/exercise/" url = true).
Proof.
  split; [|split; [|split; [|split; [|split]]]].
  - rewrite run_fetchApi_log. simpl. rewrite request_url_normal. reflexivity.
  - intros H. rewrite !run_fetchApi_log. simpl. rewrite !request_url_normal.
    rewrite (not_startsWith_slash _ H). reflexivity.
  - reflexivity.
  - intros c url Hin.
    destruct c; unfold video_call, startVideoFeed, stopVideoFeed, getVideoStatus,
      getCurrentFrame, Api.get, Api.post in Hin;
      rewrite run_fetchApi_log in Hin; simpl in Hin;
      apply list_elem_of_singleton in Hin; subst url; reflexivity.
  - reflexivity.
  - intros c url Hin.
    destruct c; unfold exercise_call, startExercise, stopExercise, getExerciseData,
      getExerciseStats, getExerciseHistory, getCommonFeedback, Api.get, Api.post in Hin;
      rewrite run_fetchApi_log in Hin; simpl in Hin;
      apply list_elem_of_singleton in Hin; subst url; reflexivity.
Qed.

Lemma request_url_spec_witness :
  (run offline 0 (fetchApi sample_stringify None ("/" +:+ "video/status") ∅)).1.*1
  = (run offline 0 (fetchApi sample_stringify None "video/status" ∅)).1.*1
  ∧ startsWith "/api/exercise/" "/api/exercise/common_feedback?period=week" = true.
Proof.
  pose proof (request_url_spec sample_stringify None offline 0 "video/status" ∅)
    as (_ & Hslash & _ & _ & _ & Hex).
  split.
  - apply Hslash. reflexivity.
  - apply (Hex (GetCommonFeedback {[ "period" := VStr "week" ]})).
    vm_compute. apply list_elem_of_here.
Defined.

(** C6, as stated, fails: for the endpoint ['/a'], [fetchApi(e)] and
    [fetchApi('/' + e)] request different URLs. *)
Lemma leading_slash_twice :
  (run offline 0 (fetchApi sample_stringify None ("/" +:+ "/a") ∅)).1.*1
  ≠ (run offline 0 (fetchApi sample_stringify None "/a" ∅)).1.*1.
Proof.
  rewrite !run_fetchApi_log. simpl. vm_compute. discriminate.
Qed.

(* ===================================================================== *)
(** ** More of [services/api.js]: what a call sends                       *)
(* ===================================================================== *)

Lemma string_app_assoc (a b c : string) : a +:+ b +:+ c = (a +:+ b) +:+ c.
Proof.
  induction a as [|x a IH]; [reflexivity|].
  change (String x (a +:+ b +:+ c) = String x ((a +:+ b) +:+ c)).
  f_equal. exact IH.
Qed.

Lemma request_config_headers (JSON_stringify : JsVal -> string)
    (options : gmap string JsVal) :
  request_config JSON_stringify options !! "headers"
  = Some (VObj (request_headers options)).
Proof.
  unfold request_config.
  destruct (truthy _ && typeof_object _).
  - rewrite lookup_insert_ne by discriminate. apply lookup_insert_eq.
  - apply lookup_insert_eq.
Qed.

Lemma request_config_other (JSON_stringify : JsVal -> string)
    (options : gmap string JsVal) (k : string) :
  k ≠ "headers" -> k ≠ "body" ->
  request_config JSON_stringify options !! k = options !! k.
Proof.
  intros Hh Hb. unfold request_config.
  destruct (truthy _ && typeof_object _);
    rewrite !lookup_insert_ne by congruence; reflexivity.
Qed.

Lemma request_config_body (JSON_stringify : JsVal -> string)
    (options : gmap string JsVal) :
  request_config JSON_stringify options !! "body"
  = let body := default VUndefined (options !! "body") in
    if truthy body && typeof_object body
    then Some (VStr (JSON_stringify body))
    else options !! "body".
Proof.
  unfold request_config. cbv zeta.
  destruct (truthy _ && typeof_object _).
  - apply lookup_insert_eq.
  - rewrite lookup_insert_ne by discriminate. reflexivity.
Qed.

(** X1: the request of [fetchApi] carries a [headers] object in which every
    header the caller gave is kept with the caller's value, and
    [Content-Type] is [application/json] unless the caller gave a
    [Content-Type] of its own; header names are compared as they are
    written, so a caller's [content-type] is sent beside the default. *)
Theorem fetchApi_headers (JSON_stringify : JsVal -> string)
    (REACT_APP_API_URL : option string) (net : Network) (n : nat)
    (endpoint : string) (options : gmap string JsVal) :
  ∃ (url : string) (config sent : gmap string JsVal),
    (run net n (fetchApi JSON_stringify REACT_APP_API_URL endpoint options)).1
    = [(url, config)]
    ∧ config !! "headers" = Some (VObj sent)
    ∧ (∀ (k : string) (v : JsVal),
         spread (default VUndefined (options !! "headers")) !! k = Some v ->
         sent !! k = Some v)
    ∧ (spread (default VUndefined (options !! "headers")) !! "Content-Type" = None ->
       sent !! "Content-Type" = Some (VStr "application/json"))
    ∧ (∀ k : string,
         k ≠ "Content-Type" ->
         sent !! k = spread (default VUndefined (options !! "headers")) !! k).
Proof.
  eexists _, _, _. split; [apply run_fetchApi_log|].
  split; [apply request_config_headers|].
  unfold request_headers. split; [|split].
  - intros k v H. apply lookup_union_Some_l. exact H.
  - intros H. rewrite lookup_union_r by exact H. apply lookup_singleton_eq.
  - intros k Hk. rewrite lookup_union_l; [reflexivity|].
    apply lookup_singleton_ne. congruence.
Qed.

Lemma fetchApi_headers_witness :
  ∃ (url : string) (config sent : gmap string JsVal),
    (run offline 0
       (fetchApi sample_stringify None "video/status"
          {[ "headers" := VObj {[ "content-type" := VStr "text/plain";
                                  "X-Trace" := VStr "1" ]} ]})).1
    = [(url, config)]
    ∧ config !! "headers" = Some (VObj sent)
    ∧ sent !! "X-Trace" = Some (VStr "1")
    ∧ sent !! "content-type" = Some (VStr "text/plain")
    ∧ sent !! "Content-Type" = Some (VStr "application/json").
Proof.
  destruct (fetchApi_headers sample_stringify None offline 0 "video/status"
              {[ "headers" := VObj {[ "content-type" := VStr "text/plain";
                                      "X-Trace" := VStr "1" ]} ]})
    as (url & config & sent & Hlog & Hh & Hkeep & Hdefault & _).
  exists url, config, sent. split; [exact Hlog|]. split; [exact Hh|].
  split; [apply Hkeep; reflexivity|].
  split; [apply Hkeep; reflexivity|].
  apply Hdefault. reflexivity.
Defined.

(** X2: the request keeps every option of the caller other than [headers]
    and [body] as it is; a [body] that is an object or an array is sent as
    its [JSON.stringify], and any other body (a string, a number, [null],
    none) is sent as it is, not serialised. *)
Theorem fetchApi_body (JSON_stringify : JsVal -> string)
    (REACT_APP_API_URL : option string) (net : Network) (n : nat)
    (endpoint : string) (options : gmap string JsVal) :
  ∃ (url : string) (config : gmap string JsVal),
    (run net n (fetchApi JSON_stringify REACT_APP_API_URL endpoint options)).1
    = [(url, config)]
    ∧ (∀ k : string, k ≠ "headers" -> k ≠ "body" -> config !! k = options !! k)
    ∧ (∀ o, options !! "body" = Some (VObj o) ->
         config !! "body" = Some (VStr (JSON_stringify (VObj o))))
    ∧ (∀ l, options !! "body" = Some (VArr l) ->
         config !! "body" = Some (VStr (JSON_stringify (VArr l))))
    ∧ (typeof_object (default VUndefined (options !! "body")) = false ->
       config !! "body" = options !! "body")
    ∧ (options !! "body" = Some VNull -> config !! "body" = Some VNull).
Proof.
  eexists _, _. split; [apply run_fetchApi_log|].
  split; [intros k; apply request_config_other|].
  rewrite request_config_body. cbv zeta.
  repeat split.
  - intros o ->. reflexivity.
  - intros l ->. reflexivity.
  - intros ->. rewrite andb_false_r. reflexivity.
  - intros ->. reflexivity.
Qed.

Lemma fetchApi_body_witness :
  ∃ (url : string) (config : gmap string JsVal),
    (run offline 0
       (fetchApi sample_stringify None "exercise/start"
          {[ "method" := VStr "POST"; "body" := VStr "raw" ]})).1
    = [(url, config)]
    ∧ config !! "method" = Some (VStr "POST")
    ∧ config !! "body" = Some (VStr "raw").
Proof.
  destruct (fetchApi_body sample_stringify None offline 0 "exercise/start"
              {[ "method" := VStr "POST"; "body" := VStr "raw" ]})
    as (url & config & Hlog & Hother & _ & _ & Hraw & _).
  exists url, config. split; [exact Hlog|]. split.
  - rewrite Hother by discriminate. reflexivity.
  - rewrite Hraw by reflexivity. reflexivity.
Defined.

(** The method and the body a verb wrapper puts in the request. *)
Lemma verb_config (JSON_stringify : JsVal -> string) (verb : string)
    (options : gmap string JsVal) :
  request_config JSON_stringify (<["method" := VStr verb]> options) !! "method"
  = Some (VStr verb).
Proof.
  rewrite request_config_other by discriminate. apply lookup_insert_eq.
Qed.

Lemma verb_data_config (JSON_stringify : JsVal -> string) (verb : string)
    (data : JsVal) (options : gmap string JsVal) :
  let config := request_config JSON_stringify
                  (<["body" := data]> (<["method" := VStr verb]> options)) in
  config !! "method" = Some (VStr verb)
  ∧ config !! "body"
    = Some (if truthy data && typeof_object data
            then VStr (JSON_stringify data) else data).
Proof.
  cbv zeta. split.
  - rewrite request_config_other by discriminate.
    rewrite lookup_insert_ne by discriminate. apply lookup_insert_eq.
  - rewrite request_config_body. cbv zeta. rewrite lookup_insert_eq. simpl.
    destruct (truthy data && typeof_object data); reflexivity.
Qed.

(** X3: whatever [method] and [body] the caller's options have, [get] sends
    [GET] and [del] sends [DELETE], and [post], [put] and [patch] send their
    own method with a body made of [data] alone: its [JSON.stringify] when
    [data] is an object or an array, and [data] itself otherwise. *)
Theorem verbs_fix_method_and_body (JSON_stringify : JsVal -> string)
    (REACT_APP_API_URL : option string) (net : Network) (n : nat)
    (endpoint : string) (data : JsVal) (options : gmap string JsVal) :
  let sent := fun p : Prog JsVal =>
                match (run net n p).1 with
                | [(_, config)] => (config !! "method", config !! "body")
                | _ => (None, None)
                end in
  let body := if truthy data && typeof_object data
              then VStr (JSON_stringify data) else data in
  (sent (Api.get JSON_stringify REACT_APP_API_URL endpoint options)).1
  = Some (VStr "GET")
  ∧ (sent (Api.del JSON_stringify REACT_APP_API_URL endpoint options)).1
    = Some (VStr "DELETE")
  ∧ sent (Api.post JSON_stringify REACT_APP_API_URL endpoint data options)
    = (Some (VStr "POST"), Some body)
  ∧ sent (Api.put JSON_stringify REACT_APP_API_URL endpoint data options)
    = (Some (VStr "PUT"), Some body)
  ∧ sent (Api.patch JSON_stringify REACT_APP_API_URL endpoint data options)
    = (Some (VStr "PATCH"), Some body).
Proof.
  cbv zeta. unfold Api.get, Api.del, Api.post, Api.put, Api.patch.
  rewrite !run_fetchApi_log. cbv beta iota.
  rewrite !verb_config.
  destruct (verb_data_config JSON_stringify "POST" data options) as [-> ->].
  destruct (verb_data_config JSON_stringify "PUT" data options) as [-> ->].
  destruct (verb_data_config JSON_stringify "PATCH" data options) as [-> ->].
  repeat split.
Qed.

(** X4: with [REACT_APP_API_URL] unset, or set to the empty string, every
    URL [fetchApi] requests starts with ['/api/'], whatever the endpoint;
    with it set to a base, every URL starts with the base and a slash. *)
Theorem fetchApi_url_under_base (JSON_stringify : JsVal -> string)
    (REACT_APP_API_URL : option string) (net : Network) (n : nat)
    (endpoint : string) (options : gmap string JsVal) :
  ∃ (url : string) (config : gmap string JsVal),
    (run net n (fetchApi JSON_stringify REACT_APP_API_URL endpoint options)).1
    = [(url, config)]
    ∧ (REACT_APP_API_URL = None ∨ REACT_APP_API_URL = Some "" ->
       startsWith "/api/" url = true)
    ∧ (∀ base, REACT_APP_API_URL = Some base -> base ≠ "" ->
       startsWith (base +:+ "/") url = true).
Proof.
  eexists _, _. split; [apply run_fetchApi_log|].
  rewrite request_url_normal. split.
  - intros [-> | ->]; apply startsWith_app; eexists; reflexivity.
  - intros base -> Hbase. apply startsWith_app.
    exists (strip_leading_slash endpoint). simpl.
    destruct (String.eqb_spec base ""); [contradiction|].
    apply string_app_assoc.
Qed.

Lemma fetchApi_url_under_base_witness :
  ∃ (url : string) (config : gmap string JsVal),
    (run offline 0 (fetchApi sample_stringify (Some "") "//x" ∅)).1 = [(url, config)]
    ∧ startsWith "/api/" url = true.
Proof.
  destruct (fetchApi_url_under_base sample_stringify (Some "") offline 0 "//x" ∅)
    as (url & config & Hlog & Hdefault & _).
  exists url, config. split; [exact Hlog|]. apply Hdefault. right. reflexivity.
Defined.

(** X5: the [request] of a thrown error has every property of the config
    that was sent; its [url] is the URL requested when the caller's options
    have no [url] property, and the caller's [url] option when they have
    one. *)
Theorem thrown_request_details (JSON_stringify : JsVal -> string)
    (REACT_APP_API_URL : option string) (net : Network) (n : nat)
    (endpoint : string) (options e : gmap string JsVal) :
  (run net n (fetchApi JSON_stringify REACT_APP_API_URL endpoint options)).2
  = Thrown e ->
  ∃ (url : string) (config request : gmap string JsVal),
    (run net n (fetchApi JSON_stringify REACT_APP_API_URL endpoint options)).1
    = [(url, config)]
    ∧ e !! "request" = Some (VObj request)
    ∧ (∀ (k : string) (v : JsVal), config !! k = Some v -> request !! k = Some v)
    ∧ (options !! "url" = None -> request !! "url" = Some (VStr url))
    ∧ (∀ v : JsVal, options !! "url" = Some v -> request !! "url" = Some v).
Proof.
  intros He. apply fetchApi_thrown_annotated in He as [e0 ->].
  eexists _, _, _. split; [apply run_fetchApi_log|].
  split; [apply annotate_request|].
  unfold request_details. split; [|split].
  - intros k v H. apply lookup_union_Some_l. exact H.
  - intros H. rewrite lookup_union_r.
    + apply lookup_singleton_eq.
    + rewrite request_config_other by discriminate. exact H.
  - intros v H. apply lookup_union_Some_l.
    rewrite request_config_other by discriminate. exact H.
Qed.

Lemma thrown_request_details_witness :
  ∃ (url : string) (config request : gmap string JsVal),
    (run offline 0
       (fetchApi sample_stringify None "video/status" {[ "url" := VStr "/elsewhere" ]})).1
    = [(url, config)]
    ∧ url = "/api/video/status"
    ∧ request !! "url" = Some (VStr "/elsewhere").
Proof.
  destruct (thrown_request_details sample_stringify None offline 0 "video/status"
              {[ "url" := VStr "/elsewhere" ]} _ eq_refl)
    as (url & config & request & Hlog & _ & _ & _ & Hshadow).
  exists url, config, request. split; [exact Hlog|]. split.
  - vm_compute in Hlog. congruence.
  - apply Hshadow. reflexivity.
Defined.

(** X6: [fetchApi] returns a value only for a response that is ok: when
    the fetch is rejected or the response is not ok, whatever its body, the
    call throws. *)
Theorem fetchApi_returns_only_ok (JSON_stringify : JsVal -> string)
    (REACT_APP_API_URL : option string) (net : Network) (n : nat)
    (endpoint : string) (options : gmap string JsVal) (v : JsVal) :
  (run net n (fetchApi JSON_stringify REACT_APP_API_URL endpoint options)).2 = Ok v ->
  ∃ response : Response,
    net n (request_url REACT_APP_API_URL endpoint)
          (request_config JSON_stringify options) = Ok response
    ∧ ok response = true
    ∧ read_body response = Ok v.
Proof.
  destruct (net n (request_url REACT_APP_API_URL endpoint)
                  (request_config JSON_stringify options))
    as [response|e0] eqn:Hnet.
  - destruct (ok response) eqn:Hok.
    + rewrite (run_fetchApi_ok _ _ _ _ _ _ _ Hnet Hok).
      destruct (read_body response) as [v'|e'] eqn:Hbody; [|discriminate].
      intros H. inversion H; subst. eauto.
    + rewrite (run_fetchApi_not_ok _ _ _ _ _ _ _ Hnet Hok). discriminate.
  - rewrite (run_fetchApi_rejected _ _ _ _ _ _ _ Hnet). discriminate.
Qed.

Lemma fetchApi_returns_only_ok_witness :
  ∃ response : Response,
    always plain_text 0%nat (request_url None "ping") (request_config sample_stringify ∅)
    = Ok response
    ∧ ok response = true
    ∧ read_body response = Ok (VStr "pong").
Proof.
  apply (fetchApi_returns_only_ok sample_stringify None (always plain_text) 0 "ping" ∅).
  reflexivity.
Defined.

(* ===================================================================== *)
(** ** The endpoints of the workout service and the feedback query        *)
(* ===================================================================== *)


Example workout_plan_urls :
  (run offline 0 (WorkoutRequests.getWorkoutPlan sample_stringify None (VNum 7))).1.*1
  = ["/api/workout/plans/7"]
  ∧ (run offline 0 (WorkoutRequests.startWorkoutPlan sample_stringify None (VNum 7))).1.*1
    = ["/api/workout/plans/7/start"]
  ∧ (run offline 0 (WorkoutRequests.getWorkoutPlan sample_stringify None VUndefined)).1.*1
    = ["/api/workout/plans/undefined"].
Proof. repeat split; reflexivity. Qed.

(** *** The form encoding *)

Lemma all_chars_app (P : ascii -> bool) (a b : string) :
  all_chars P (a +:+ b) = all_chars P a && all_chars P b.
Proof.
  induction a as [|x a IH]; [reflexivity|].
  change (all_chars P (String x (a +:+ b)) = all_chars P (String x a) && all_chars P b).
  simpl. rewrite IH. apply andb_assoc.
Qed.

Lemma count_char_app (c : ascii) (a b : string) :
  count_char c (a +:+ b) = (count_char c a + count_char c b)%nat.
Proof.
  induction a as [|x a IH]; [reflexivity|].
  change (count_char c (String x (a +:+ b))
          = (count_char c (String x a) + count_char c b)%nat).
  simpl. rewrite IH. lia.
Qed.

Lemma all_chars_count (P : ascii -> bool) (c : ascii) (s : string) :
  all_chars P s = true -> P c = false -> count_char c s = 0%nat.
Proof.
  intros Hs Hc. induction s as [|x s IH]; [reflexivity|].
  simpl in *. apply andb_prop in Hs as [Hx Hs].
  destruct (Ascii.eqb_spec x c) as [->|_]; [congruence|].
  simpl. auto.
Qed.

Lemma form_encode_safe (s : string) : all_chars form_safe (form_encode s) = true.
Proof.
  induction s as [|c s IH]; [reflexivity|].
  destruct c as [[] [] [] [] [] [] [] []]; simpl; exact IH.
Qed.

Lemma form_encode_no_char (c : ascii) (s : string) :
  form_safe c = false -> count_char c (form_encode s) = 0%nat.
Proof. apply all_chars_count, form_encode_safe. Qed.

Lemma form_safe_query_safe (s : string) :
  all_chars form_safe s = true -> all_chars query_safe s = true.
Proof.
  induction s as [|c s IH]; [reflexivity|]. simpl.
  intros [Hc Hs]%andb_prop. unfold query_safe. rewrite Hc. simpl. auto.
Qed.

Lemma URLSearchParams_toString_safe (params : list (string * string)) :
  all_chars query_safe (URLSearchParams_toString params) = true
  ∧ count_char "=" (URLSearchParams_toString params) = length params
  ∧ count_char "&" (URLSearchParams_toString params) = (length params - 1)%nat.
Proof.
  induction params as [|[k v] rest (IHs & IHe & IHa)]; [repeat split|].
  cbn [URLSearchParams_toString].
  rewrite !all_chars_app, !count_char_app.
  rewrite !form_encode_no_char by reflexivity.
  rewrite !(form_safe_query_safe _ (form_encode_safe _)).
  destruct rest as [|kv rest'].
  - repeat split.
  - rewrite !all_chars_app, !count_char_app, IHs, IHe, IHa.
    repeat split. simpl. lia.
Qed.

(** X8: [getCommonFeedback] makes one [GET] request.  Its URL is exactly
    ['/api/exercise/common_feedback'] when neither [exercise] nor [period] is
    truthy; otherwise it is that path, a question mark and a query with one
    [name=value] pair for each of the two that is truthy: the query has as
    many [=] as pairs, one [&] fewer, and apart from them only letters,
    digits and [* - . _ + %], so a value can neither add a parameter nor
    end the query. *)
Theorem getCommonFeedback_url (JSON_stringify : JsVal -> string) (net : Network)
    (n : nat) (params : gmap string JsVal) :
  let pairs := (if truthy (default VUndefined (params !! "exercise")) then 1 else 0)
               + (if truthy (default VUndefined (params !! "period")) then 1 else 0) in
  ∃ (url query : string) (config : gmap string JsVal),
    (run net n (getCommonFeedback JSON_stringify None params)).1 = [(url, config)]
    ∧ config !! "method" = Some (VStr "GET")
    ∧ url = "/api/exercise/common_feedback"
            +:+ (if pairs =? 0 then "" else "?" +:+ query)
    ∧ Z.of_nat (count_char "=" query) = pairs
    ∧ Z.of_nat (count_char "&" query) = Z.max 0 (pairs - 1)
    ∧ all_chars query_safe query = true.
Proof.
  cbv zeta.
  exists (request_url None
            ("exercise/common_feedback"
             +:+ (if negb (String.eqb (URLSearchParams_toString (feedback_query params)) "")
                  then "?" +:+ URLSearchParams_toString (feedback_query params)
                  else ""))),
         (URLSearchParams_toString (feedback_query params)).
  eexists. unfold getCommonFeedback, Api.get.
  split; [apply run_fetchApi_log|]. split; [apply verb_config|].
  destruct (URLSearchParams_toString_safe (feedback_query params)) as (Hs & He & Ha).
  rewrite He, Ha, Hs. unfold feedback_query.
  destruct (truthy (default VUndefined (params !! "exercise")));
    destruct (truthy (default VUndefined (params !! "period")));
    repeat split.
Qed.

Example common_feedback_injection :
  (run offline 0
     (getCommonFeedback sample_stringify None
        {[ "exercise" := VStr "squat&period=all#x" ]})).1.*1
  = ["/api/exercise/common_feedback?exercise=squat%26period%3Dall%23x"].
Proof. reflexivity. Qed.

(* ===================================================================== *)
(** ** More of [createExerciseSequence]                                   *)
(* ===================================================================== *)

Lemma js_or_truthy (a b : JsVal) : truthy b = true -> truthy (js_or a b) = true.
Proof. intros Hb. unfold js_or. destruct (truthy a) eqn:Ha; assumption. Qed.

(** X9: every item [createExerciseSequence] returns comes from the
    exercise at its index and has exactly the eight properties of the
    literal; its [name] is the exercise's; its [sets] and [reps] are truthy
    (never 0, [null] or missing); its [is_timed] is the exercise's when that
    is truthy and [false] otherwise; its [completed] is [false]; and its
    [id] has neither whitespace nor upper-case letters. *)
Theorem sequence_items_well_formed (workoutDay : JsVal)
    (items : list (gmap string JsVal)) (i : nat) (item : gmap string JsVal) :
  createExerciseSequence workoutDay = Ok items ->
  items !! i = Some item ->
  ∃ exercise : JsVal,
    elements_of (prop workoutDay "exercises") !! i = Some exercise
    ∧ dom item = list_to_set ["id"; "name"; "sets"; "reps"; "is_timed";
                              "target_duration"; "target_reps"; "completed"]
    ∧ item !! "name" = Some (prop exercise "name")
    ∧ truthy (prop (VObj item) "sets") = true
    ∧ truthy (prop (VObj item) "reps") = true
    ∧ (truthy (prop exercise "is_timed") = true ->
       item !! "is_timed" = Some (prop exercise "is_timed"))
    ∧ (truthy (prop exercise "is_timed") = false ->
       item !! "is_timed" = Some (VBool false))
    ∧ (prop (VObj item) "is_timed" = VBool false
       ∨ truthy (prop (VObj item) "is_timed") = true)
    ∧ item !! "completed" = Some (VBool false)
    ∧ ∃ id : string,
        item !! "id" = Some (VStr id)
        ∧ all_chars (fun c => negb (is_space c) && negb (is_upper c)) id = true.
Proof.
  intros H Hi.
  apply createExerciseSequence_Ok_inv in H as [H | [[-> _] | [-> _]]];
    [|destruct i; discriminate..].
  destruct (array_map_Ok_inv _ _ _ H) as [_ Hnth].
  destruct (Hnth _ _ Hi) as (exercise & Hex & Hfx).
  apply sequence_item_Ok_inv in Hfx as (name & Hn & ->).
  exists exercise. split; [exact Hex|].
  split.
  { unfold item_literal. rewrite !dom_insert_L, dom_singleton_L.
    simpl. set_solver. }
  split; [rewrite Hn; reflexivity|].
  split; [apply js_or_truthy; reflexivity|].
  split; [apply js_or_truthy; reflexivity|].
  assert (item_literal exercise (VStr name) (toLowerCase name) !! "is_timed"
          = Some (js_or (prop exercise "is_timed") (VBool false))) as Htimed
    by reflexivity.
  split; [intros Ht; rewrite Htimed; unfold js_or; rewrite Ht; reflexivity|].
  split; [intros Ht; rewrite Htimed; unfold js_or; rewrite Ht; reflexivity|].
  split.
  { change (prop (VObj (item_literal exercise (VStr name) (toLowerCase name))) "is_timed")
      with (js_or (prop exercise "is_timed") (VBool false)).
    unfold js_or. destruct (truthy (prop exercise "is_timed")) eqn:Ht; auto. }
  split; [reflexivity|].
  exists (exercise_id name). split; [reflexivity | apply exercise_id_clean].
Qed.

Lemma sequence_items_well_formed_witness :
  ∃ item : gmap string JsVal,
    createExerciseSequence plank_day = Ok [item]
    ∧ item !! "name" = Some (VStr "Plank")
    ∧ item !! "is_timed" = Some (VBool true)
    ∧ truthy (prop (VObj item) "reps") = true
    ∧ item !! "completed" = Some (VBool false).
Proof.
  eexists. split; [reflexivity|].
  destruct (sequence_items_well_formed plank_day _ 0%nat _ eq_refl eq_refl)
    as (exercise & Hex & _ & Hname & _ & Hreps & Htimed & _ & _ & Hc & _).
  injection Hex as <-.
  split; [exact Hname|]. split; [exact (Htimed eq_refl)|].
  split; [exact Hreps | exact Hc].
Defined.



Lemma lower_upper_char (c : ascii) : lower_char (upper_char c) = lower_char c.
Proof. destruct c as [[] [] [] [] [] [] [] []]; reflexivity. Qed.







(* ===================================================================== *)
(** ** More of [workoutReducer] and the provider                          *)
(* ===================================================================== *)

Lemma reduce_completions (now : string) (state : State)
    (completions : list (Z * ExerciseStats)) :
  let state' := Provider.reduce now state
                  (map (fun c => COMPLETE_EXERCISE c.1 c.2) completions) in
  completedExercises (sessionStats state')
  = completedExercises (sessionStats state) + Z.of_nat (length completions)
  ∧ totalReps (sessionStats state')
    = totalReps (sessionStats state)
      + foldr Z.add 0 (map (fun c => default 0 (repCount c.2)) completions)
  ∧ totalDuration (sessionStats state')
    = totalDuration (sessionStats state)
      + foldr Z.add 0 (map (fun c => default 0 (duration c.2)) completions)
  ∧ length (exerciseSequence state') = length (exerciseSequence state).
Proof.
  cbv zeta. revert state.
  induction completions as [|[i stats] rest IH]; intros state.
  - simpl. repeat split; lia.
  - unfold Provider.reduce in *. cbn [map fold_left fst snd length foldr].
    destruct (IH (workoutReducer now state (COMPLETE_EXERCISE i stats)))
      as (-> & -> & -> & ->).
    simpl. rewrite !or_zero_default, complete_item_length.
    repeat split; lia.
Qed.

(** X11: after [START_SESSION], any run of [COMPLETE_EXERCISE] actions,
    whatever their indices, leaves [completedExercises] equal to the number
    of actions, [totalReps] to the sum of their [repCount]s and
    [totalDuration] to the sum of their [duration]s (an absent one counting
    0), and the sequence as long as it was. *)
Theorem session_counters (now : string) (state : State)
    (completions : list (Z * ExerciseStats)) :
  let state' := Provider.reduce now (workoutReducer now state START_SESSION)
                  (map (fun c => COMPLETE_EXERCISE c.1 c.2) completions) in
  completedExercises (sessionStats state') = Z.of_nat (length completions)
  ∧ totalReps (sessionStats state')
    = foldr Z.add 0 (map (fun c => default 0 (repCount c.2)) completions)
  ∧ totalDuration (sessionStats state')
    = foldr Z.add 0 (map (fun c => default 0 (duration c.2)) completions)
  ∧ length (exerciseSequence state') = length (exerciseSequence state).
Proof.
  cbv zeta.
  destruct (reduce_completions now (workoutReducer now state START_SESSION) completions)
    as (-> & -> & -> & ->).
  simpl. repeat split; lia.
Qed.

Lemma filter_insert_length {A} (P : A -> Prop) `{!∀ x, Decision (P x)}
    (l : list A) (i : nat) (x : A) :
  (length (filter P (<[i := x]> l)) <= length (filter P l) + 1)%nat.
Proof.
  revert i. induction l as [|y l IH]; intros i; [simpl; lia|].
  destruct i as [|i]; simpl.
  - rewrite !filter_cons. destruct (decide (P x)), (decide (P y)); simpl; lia.
  - rewrite !filter_cons. specialize (IH i).
    destruct (decide (P y)); simpl; lia.
Qed.

Lemma completed_count_complete_item (sequence : list (gmap string JsVal)) (i : Z)
    (stats : ExerciseStats) :
  completed_count (complete_item sequence i stats) <= completed_count sequence + 1.
Proof.
  unfold complete_item, completed_count.
  destruct (item_at sequence i); [|lia].
  pose proof (filter_insert_length (fun item => is_completed item = true) sequence
                (Z.to_nat i)
                (<["results" := stats_object stats]> (<["completed" := VBool true]> g))).
  lia.
Qed.

Lemma counted_step (now : string) (state : State) (action : Action) :
  Provider.in_session action = true ->
  Provider.counted state -> Provider.counted (workoutReducer now state action).
Proof.
  unfold Provider.counted. intros Ha H.
  destruct action; try discriminate Ha; simpl; try exact H.
  - pose proof (completed_count_complete_item (exerciseSequence state) exerciseIndex stats).
    lia.
  - reflexivity.
Qed.

(** X12: as long as no action replaces the sequence, restarts the session
    or overwrites the session statistics, the number of items marked
    completed never exceeds [completedExercises]: if it does not before a
    run of such actions, it does not after it. *)
Theorem completed_items_counted (now : string) (state : State) (actions : list Action) :
  Provider.counted state ->
  Forall (fun a => Provider.in_session a = true) actions ->
  Provider.counted (Provider.reduce now state actions).
Proof.
  intros H Hall. revert state H.
  induction Hall as [|a actions Ha _ IH]; intros state H; [exact H|].
  unfold Provider.reduce in *. simpl. apply IH, counted_step; assumption.
Qed.

Lemma completed_items_counted_witness :
  Provider.counted
    (Provider.reduce "now"
       (workoutReducer "now" sample_state START_SESSION)
       [SET_CURRENT_EXERCISE 0; COMPLETE_EXERCISE 0 sample_stats;
        COMPLETE_EXERCISE 0 sample_stats; END_SESSION VNull]).
Proof.
  apply completed_items_counted.
  - unfold Provider.counted. vm_compute. discriminate.
  - repeat constructor.
Defined.

Lemma item_or_null_valid (sequence : list (gmap string JsVal)) (i : Z) :
  (item_or_null sequence i ≠ VNull <-> valid_index sequence i)
  ∧ (valid_index sequence i <->
     (0 <=? i) && (i <? Z.of_nat (length sequence)) = true).
Proof.
  split.
  - unfold item_or_null. split.
    + intros H. destruct (item_at sequence i) eqn:E; [|contradiction].
      unfold item_at, valid_index in *.
      destruct (Z.ltb_spec i 0); [discriminate|].
      apply lookup_lt_Some in E. lia.
    + intros H. destruct (item_at_valid _ _ H) as (item & -> & _). discriminate.
  - unfold valid_index. rewrite andb_true_iff, Z.leb_le, Z.ltb_lt. reflexivity.
Qed.

(** X13: after [setCurrentExercise(index)] the exercise modal is shown
    exactly when the index is a valid one, which is exactly when
    [activeExercise] is not [null]; then [activeExercise] is the item of the
    sequence at the index.  The sequence itself is not touched. *)
Theorem setCurrentExercise_modal (now : string) (p : Provider.Provider) (index : Z) :
  let p' := Provider.setCurrentExercise now p index in
  (Provider.showExerciseModal p' = true
   <-> valid_index (exerciseSequence (Provider.state p)) index)
  ∧ (Provider.showExerciseModal p' = true
     <-> activeExercise (Provider.state p') ≠ VNull)
  ∧ (∀ item, exerciseSequence (Provider.state p) !! Z.to_nat index = Some item ->
       0 <= index -> activeExercise (Provider.state p') = VObj item)
  ∧ currentExerciseIndex (Provider.state p') = index
  ∧ exerciseSequence (Provider.state p') = exerciseSequence (Provider.state p)
  ∧ Provider.showSummaryModal p' = Provider.showSummaryModal p.
Proof.
  cbv zeta. simpl.
  destruct (item_or_null_valid (exerciseSequence (Provider.state p)) index)
    as [Hnull Hbool].
  split; [symmetry; exact Hbool|].
  split; [rewrite Hnull; symmetry; exact Hbool|].
  split; [|repeat split].
  intros item Hitem H0. unfold item_or_null, item_at.
  destruct (Z.ltb_spec index 0); [lia|]. rewrite Hitem. reflexivity.
Qed.

Lemma setCurrentExercise_modal_witness :
  activeExercise
    (Provider.state
       (Provider.setCurrentExercise "now"
          {| Provider.state := sample_state;
             Provider.showExerciseModal := false;
             Provider.showSummaryModal := false |} 0))
  = VObj {[ "id" := VStr "squat"; "completed" := VBool false ]}.
Proof.
  apply (proj1 (proj2 (proj2 (setCurrentExercise_modal "now"
           {| Provider.state := sample_state;
              Provider.showExerciseModal := false;
              Provider.showSummaryModal := false |} 0)))).
  - reflexivity.
  - lia.
Defined.

Lemma on_item_navigation (now : string) (p : Provider.Provider) (c : Provider.Call) :
  Provider.navigation c = true ->
  Provider.on_item p ->
  Provider.on_item (Provider.call now p c)
  ∧ exerciseSequence (Provider.state (Provider.call now p c))
    = exerciseSequence (Provider.state p).
Proof.
  intros Hc [Hvalid Hactive]. unfold valid_index in Hvalid.
  destruct c; try discriminate Hc; simpl.
  - unfold Provider.goToNextExercise.
    destruct (Z.ltb_spec (currentExerciseIndex (Provider.state p) + 1)
                (Z.of_nat (length (exerciseSequence (Provider.state p))))).
    + split; [|reflexivity]. split; simpl; [unfold valid_index; lia | reflexivity].
    + split; [|reflexivity]. split; simpl; [unfold valid_index; lia | exact Hactive].
  - unfold Provider.goToPreviousExercise.
    destruct (Z.leb_spec 0 (currentExerciseIndex (Provider.state p) - 1)).
    + split; [|reflexivity]. split; simpl; [unfold valid_index; lia | reflexivity].
    + split; [|reflexivity]. split; [unfold valid_index; lia | exact Hactive].
Qed.

(** X14: once the current index is a valid one and [activeExercise] is the
    item at it, any run of [goToNextExercise] and [goToPreviousExercise]
    keeps it so: the index never leaves the sequence, [activeExercise]
    follows it, and the sequence is not changed. *)
Theorem navigation_stays_on_item (now : string) (p : Provider.Provider)
    (cs : list Provider.Call) :
  Provider.on_item p ->
  Forall (fun c => Provider.navigation c = true) cs ->
  Provider.on_item (Provider.calls now p cs)
  ∧ exerciseSequence (Provider.state (Provider.calls now p cs))
    = exerciseSequence (Provider.state p).
Proof.
  intros H Hall. revert p H.
  induction Hall as [|c cs Hc _ IH]; intros p H; [split; [exact H | reflexivity]|].
  unfold Provider.calls in *. simpl.
  destruct (on_item_navigation now p c Hc H) as [H' Hseq].
  destruct (IH _ H') as [H'' Hseq']. split; [exact H''|]. congruence.
Qed.

Lemma navigation_stays_on_item_witness :
  Provider.on_item
    (Provider.calls "now"
       (Provider.setCurrentExercise "now"
          {| Provider.state := sample_state;
             Provider.showExerciseModal := false;
             Provider.showSummaryModal := false |} 0)
       [Provider.GoToNextExercise; Provider.GoToNextExercise;
        Provider.GoToPreviousExercise; Provider.GoToPreviousExercise;
        Provider.GoToPreviousExercise]).
Proof.
  apply navigation_stays_on_item.
  - split; [unfold valid_index; simpl; lia | reflexivity].
  - repeat constructor.
Defined.

(** X15: at the ends of the sequence.  [goToNextExercise] on the last item
    (or on an empty sequence) leaves the state as it is, hides the exercise
    modal and shows the summary; [goToPreviousExercise] on the first item,
    or before any item is current, does nothing at all; and from the
    initial index -1, [goToNextExercise] moves to the first item of a
    sequence that is not empty. *)
Theorem navigation_ends (now : string) (p : Provider.Provider) :
  (Z.of_nat (length (exerciseSequence (Provider.state p)))
   <= currentExerciseIndex (Provider.state p) + 1 ->
   Provider.state (Provider.goToNextExercise now p) = Provider.state p
   ∧ Provider.showExerciseModal (Provider.goToNextExercise now p) = false
   ∧ Provider.showSummaryModal (Provider.goToNextExercise now p) = true)
  ∧ (currentExerciseIndex (Provider.state p) <= 0 ->
     Provider.goToPreviousExercise now p = p)
  ∧ (currentExerciseIndex (Provider.state p) = -1 ->
     ∀ item rest, exerciseSequence (Provider.state p) = item :: rest ->
       currentExerciseIndex (Provider.state (Provider.goToNextExercise now p)) = 0
       ∧ activeExercise (Provider.state (Provider.goToNextExercise now p)) = VObj item
       ∧ Provider.showExerciseModal (Provider.goToNextExercise now p) = true).
Proof.
  split; [|split].
  - intros H. unfold Provider.goToNextExercise.
    destruct (Z.ltb_spec (currentExerciseIndex (Provider.state p) + 1)
                (Z.of_nat (length (exerciseSequence (Provider.state p))))); [lia|].
    repeat split.
  - intros H. unfold Provider.goToPreviousExercise.
    destruct (Z.leb_spec 0 (currentExerciseIndex (Provider.state p) - 1)); [lia|].
    reflexivity.
  - intros H item rest Hseq. unfold Provider.goToNextExercise.
    rewrite H, Hseq. simpl. rewrite Hseq. repeat split.
Qed.

Lemma navigation_ends_witness :
  Provider.showSummaryModal
    (Provider.goToNextExercise "now"
       {| Provider.state := sample_state;
          Provider.showExerciseModal := true;
          Provider.showSummaryModal := false |}) = true
  ∧ Provider.goToPreviousExercise "now" Provider.initialProvider
    = Provider.initialProvider.
Proof.
  split.
  - apply (proj1 (navigation_ends "now"
             {| Provider.state := sample_state;
                Provider.showExerciseModal := true;
                Provider.showSummaryModal := false |})).
    simpl. lia.
  - apply (proj1 (proj2 (navigation_ends "now" Provider.initialProvider))).
    simpl. lia.
Defined.

Lemma complete_item_twice (sequence : list (gmap string JsVal)) (i : Z)
    (stats1 stats2 : ExerciseStats) :
  complete_item (complete_item sequence i stats1) i stats2
  = complete_item sequence i stats2.
Proof.
  unfold complete_item at 2 3.
  destruct (item_at sequence i) as [item|] eqn:Hat.
  - assert (Hlt : (Z.to_nat i < length sequence)%nat).
    { unfold item_at in Hat. destruct (i <? 0); [discriminate|].
      eapply lookup_lt_Some. exact Hat. }
    assert (H0 : (i <? 0) = false).
    { unfold item_at in Hat. destruct (i <? 0); [discriminate | reflexivity]. }
    unfold complete_item, item_at. rewrite H0.
    rewrite list_lookup_insert_eq by exact Hlt.
    rewrite list_insert_insert_eq. f_equal.
    rewrite (insert_insert_ne _ "completed" "results") by discriminate.
    rewrite insert_insert_eq. rewrite insert_insert_eq. reflexivity.
  - unfold complete_item. rewrite Hat. reflexivity.
Qed.

(** X16: completing the current exercise twice counts it twice:
    [completedExercises] goes up by 2 and [totalReps] and [totalDuration] by
    both sets of stats, while the sequence is the one a single completion
    with the second stats gives, the first [results] being overwritten. *)
Theorem complete_twice (now : string) (p : Provider.Provider)
    (stats1 stats2 : ExerciseStats) :
  0 <= currentExerciseIndex (Provider.state p) ->
  let p2 := Provider.completeCurrentExercise now
              (Provider.completeCurrentExercise now p stats1) stats2 in
  exerciseSequence (Provider.state p2)
  = exerciseSequence (Provider.state (Provider.completeCurrentExercise now p stats2))
  ∧ completedExercises (sessionStats (Provider.state p2))
    = completedExercises (sessionStats (Provider.state p)) + 2
  ∧ totalReps (sessionStats (Provider.state p2))
    = totalReps (sessionStats (Provider.state p))
      + default 0 (repCount stats1) + default 0 (repCount stats2)
  ∧ totalDuration (sessionStats (Provider.state p2))
    = totalDuration (sessionStats (Provider.state p))
      + default 0 (duration stats1) + default 0 (duration stats2).
Proof.
  intros H0. cbv zeta. unfold Provider.completeCurrentExercise.
  destruct (Z.leb_spec 0 (currentExerciseIndex (Provider.state p))) as [_|]; [|lia].
  simpl.
  destruct (Z.leb_spec 0 (currentExerciseIndex (Provider.state p))) as [_|]; [|lia].
  simpl. rewrite complete_item_twice, !or_zero_default.
  repeat split; lia.
Qed.

Lemma complete_twice_witness :
  completedExercises
    (sessionStats
       (Provider.state
          (Provider.completeCurrentExercise "now"
             (Provider.completeCurrentExercise "now"
                {| Provider.state := sample_state;
                   Provider.showExerciseModal := true;
                   Provider.showSummaryModal := false |} sample_stats)
             sample_stats)))
  = 0 + 2.
Proof.
  apply (complete_twice "now"
           {| Provider.state := sample_state;
              Provider.showExerciseModal := true;
              Provider.showSummaryModal := false |} sample_stats sample_stats).
  simpl. lia.
Defined.

(** X17: ending a session keeps its counters and stores the summary and
    the end time; starting the next one puts the three counters back to 0
    and drops that summary and end time, but leaves the sequence as it is, so
    the items completed before stay completed and their number can exceed
    the new [completedExercises]. *)
Theorem session_restart (now : string) (state : State) (summary : JsVal) :
  let ended := workoutReducer now state (END_SESSION summary) in
  let restarted := workoutReducer now ended START_SESSION in
  (completedExercises (sessionStats ended) = completedExercises (sessionStats state)
   ∧ totalReps (sessionStats ended) = totalReps (sessionStats state)
   ∧ totalDuration (sessionStats ended) = totalDuration (sessionStats state)
   ∧ otherStats (sessionStats ended) !! "summary" = Some summary
   ∧ otherStats (sessionStats ended) !! "endTime" = Some (VStr now)
   ∧ activeExercise ended = VNull)
  ∧ (completedExercises (sessionStats restarted) = 0
     ∧ totalReps (sessionStats restarted) = 0
     ∧ totalDuration (sessionStats restarted) = 0
     ∧ otherStats (sessionStats restarted) !! "summary" = None
     ∧ otherStats (sessionStats restarted) !! "endTime" = None
     ∧ sessionStartTime restarted = VStr now)
  ∧ exerciseSequence restarted = exerciseSequence state
  ∧ currentExerciseIndex restarted = currentExerciseIndex state
  ∧ (0 < completed_count (exerciseSequence state) ->
     completedExercises (sessionStats restarted)
     < completed_count (exerciseSequence restarted)).
Proof.
  cbv zeta. simpl. repeat split.
  - apply lookup_insert_eq.
  - rewrite lookup_insert_ne by discriminate. apply lookup_insert_eq.
  - intros H. exact H.
Qed.

Lemma session_restart_witness :
  completedExercises
    (sessionStats
       (workoutReducer "now"
          (workoutReducer "now"
             (workoutReducer "now" sample_state (COMPLETE_EXERCISE 0 sample_stats))
             (END_SESSION VNull))
          START_SESSION))
  < completed_count
      (exerciseSequence
         (workoutReducer "now"
            (workoutReducer "now"
               (workoutReducer "now" sample_state (COMPLETE_EXERCISE 0 sample_stats))
               (END_SESSION VNull))
            START_SESSION)).
Proof.
  apply (session_restart "now"
           (workoutReducer "now" sample_state (COMPLETE_EXERCISE 0 sample_stats)) VNull).
  vm_compute. reflexivity.
Defined.

(** X18: two [UPDATE_SESSION_STATS] in a row: for each counter and each
    other property, the value of the second payload wins, then that of the
    first, then the value the state had; and the same payload applied twice
    gives what it gives applied once. *)
Theorem update_session_stats_twice (now : string) (state : State)
    (u1 u2 : SessionStatsUpdate) :
  let stats' := sessionStats
                  (workoutReducer now
                     (workoutReducer now state (UPDATE_SESSION_STATS u1))
                     (UPDATE_SESSION_STATS u2)) in
  completedExercises stats'
  = default (default (completedExercises (sessionStats state))
                     (newCompletedExercises u1)) (newCompletedExercises u2)
  ∧ totalReps stats'
    = default (default (totalReps (sessionStats state)) (newTotalReps u1))
              (newTotalReps u2)
  ∧ totalDuration stats'
    = default (default (totalDuration (sessionStats state)) (newTotalDuration u1))
              (newTotalDuration u2)
  ∧ (∀ k : string,
       otherStats stats' !! k
       = match newOtherStats u2 !! k with
         | Some v => Some v
         | None =>
             match newOtherStats u1 !! k with
             | Some v => Some v
             | None => otherStats (sessionStats state) !! k
             end
         end)
  ∧ workoutReducer now (workoutReducer now state (UPDATE_SESSION_STATS u1))
                   (UPDATE_SESSION_STATS u1)
    = workoutReducer now state (UPDATE_SESSION_STATS u1).
Proof.
  cbv zeta. simpl. repeat split.
  - intros k. rewrite !lookup_union.
    destruct (newOtherStats u2 !! k), (newOtherStats u1 !! k),
      (otherStats (sessionStats state) !! k); reflexivity.
  - unfold merge_stats. simpl. f_equal. f_equal.
    + destruct (newCompletedExercises u1); reflexivity.
    + destruct (newTotalReps u1); reflexivity.
    + destruct (newTotalDuration u1); reflexivity.
    + rewrite (assoc_L (∪)). rewrite (idemp_L (∪)). reflexivity.
Qed.

Lemma run_and_then_done {A B} (net : Network) (n : nat) (p : Prog A)
    (f : JsResult A -> JsResult B) :
  run net n (Provider.and_then p (fun r => Done (f r)))
  = ((run net n p).1, f (run net n p).2).
Proof.
  revert n. induction p as [r|u c k IH]; intros n; [reflexivity|].
  simpl. rewrite IH. reflexivity.
Qed.

(** X19: whatever the network does, the load of the current workout makes
    one [GET] request for ['/api/workout/current'], does not throw, and ends
    with [isLoading] false.  A failed request changes nothing else: the
    error is not stored.  A response with a truthy [success] and
    [workout_plan] stores the plan and clears [error]; any other response
    leaves both as they were.  The sequence, the index, the statistics and
    the modals are never touched. *)
Theorem loadCurrentWorkout_spec (JSON_stringify : JsVal -> string) (net : Network)
    (n : nat) (now : string) (p : Provider.Provider) :
  let settled :=
    (run net n (WorkoutRequests.getCurrentWorkout JSON_stringify None)).2 in
  ∃ (p' : Provider.Provider) (config : gmap string JsVal),
    run net n (Provider.loadCurrentWorkout JSON_stringify None now p)
    = ([("/api/workout/current", config)], Ok p')
    ∧ config !! "method" = Some (VStr "GET")
    ∧ isLoading (Provider.state p') = VBool false
    ∧ exerciseSequence (Provider.state p') = exerciseSequence (Provider.state p)
    ∧ currentExerciseIndex (Provider.state p') = currentExerciseIndex (Provider.state p)
    ∧ activeExercise (Provider.state p') = activeExercise (Provider.state p)
    ∧ sessionStats (Provider.state p') = sessionStats (Provider.state p)
    ∧ Provider.showExerciseModal p' = Provider.showExerciseModal p
    ∧ Provider.showSummaryModal p' = Provider.showSummaryModal p
    ∧ (∀ e, settled = Thrown e ->
         currentWorkout (Provider.state p') = currentWorkout (Provider.state p)
         ∧ error (Provider.state p') = error (Provider.state p))
    ∧ (∀ response, settled = Ok response ->
         if truthy response && truthy (prop response "success")
            && truthy (prop response "workout_plan")
         then currentWorkout (Provider.state p') = prop response "workout_plan"
              ∧ error (Provider.state p') = VNull
         else currentWorkout (Provider.state p') = currentWorkout (Provider.state p)
              ∧ error (Provider.state p') = error (Provider.state p)).
Proof.
  cbv zeta. unfold Provider.loadCurrentWorkout.
  rewrite run_and_then_done.
  unfold WorkoutRequests.getCurrentWorkout, Api.get at 1.
  rewrite run_fetchApi_log.
  eexists _, _. split; [reflexivity|]. split; [apply verb_config|].
  destruct (run net n (Api.get JSON_stringify None "workout/current" ∅)).2
    as [response|e]; simpl.
  - destruct (truthy response && truthy (prop response "success")
              && truthy (prop response "workout_plan")) eqn:Ht; simpl;
      repeat split; try discriminate;
      intros r Hr; inversion Hr; subst r; rewrite Ht; split; reflexivity.
  - repeat split; discriminate.
Qed.

Example loadCurrentWorkout_offline :
  (run offline 0
     (Provider.loadCurrentWorkout sample_stringify None "now" Provider.initialProvider)).2
  = Ok Provider.initialProvider.
Proof. reflexivity. Qed.

Lemma loadCurrentWorkout_spec_witness :
  ∃ (p' : Provider.Provider) (config : gmap string JsVal),
    run offline 0
      (Provider.loadCurrentWorkout sample_stringify None "now" Provider.initialProvider)
    = ([("/api/workout/current", config)], Ok p')
    ∧ currentWorkout (Provider.state p') = VNull
    ∧ error (Provider.state p') = VNull.
Proof.
  destruct (loadCurrentWorkout_spec sample_stringify offline 0 "now"
              Provider.initialProvider)
    as (p' & config & Hrun & _ & _ & _ & _ & _ & _ & _ & _ & Hfail & _).
  exists p', config. split; [exact Hrun|].
  apply (Hfail (annotate "workout/current" "/api/workout/current"
                  (request_config sample_stringify {[ "method" := VStr "GET" ]})
                  (TypeError "Failed to fetch"))).
  reflexivity.
Defined.

(* ===================================================================== *)
(** ** The feedback components                                            *)
(* ===================================================================== *)

Lemma upper_lower_char (c : ascii) : upper_char (lower_char c) = upper_char c.
Proof. destruct c as [[] [] [] [] [] [] [] []]; reflexivity. Qed.

Lemma upper_char_idem (c : ascii) : upper_char (upper_char c) = upper_char c.
Proof. destruct c as [[] [] [] [] [] [] [] []]; reflexivity. Qed.

Lemma toUpperCase_idem (s : string) : toUpperCase (toUpperCase s) = toUpperCase s.
Proof.
  induction s as [|c s IH]; [reflexivity|]. simpl.
  rewrite upper_char_idem, IH. reflexivity.
Qed.

(** Matching without case is matching the lowered characters. *)
Lemma eqb_ci_lower (a b : ascii) :
  lower_char a = a ->
  eqb_ci a b = if Ascii.ascii_dec a (lower_char b) then true else false.
Proof.
  intros Ha. unfold eqb_ci.
  destruct (Ascii.ascii_dec a (lower_char b)) as [E|E].
  - rewrite E, upper_lower_char. apply Ascii.eqb_refl.
  - apply Ascii.eqb_neq. intros H. apply E.
    rewrite <- Ha, <- (lower_upper_char a), H, lower_upper_char. reflexivity.
Qed.

Lemma prefix_ci_lower (k s : string) :
  toLowerCase k = k -> prefix_ci k s = startsWith k (toLowerCase s).
Proof.
  unfold startsWith. revert s. induction k as [|a k IH]; intros s Hk.
  - destruct s; reflexivity.
  - simpl in Hk. injection Hk as Ha Hk'.
    destruct s as [|b s]; [reflexivity|]. simpl.
    rewrite (eqb_ci_lower _ _ Ha).
    destruct (Ascii.ascii_dec a (lower_char b)); [apply IH; exact Hk' | reflexivity].
Qed.

Lemma includes_ci_lower (k s : string) :
  toLowerCase k = k -> includes_ci k s = includes k (toLowerCase s).
Proof.
  intros Hk. induction s as [|b s IH].
  - simpl. rewrite (prefix_ci_lower k "" Hk). reflexivity.
  - cbn [includes_ci]. rewrite (prefix_ci_lower k (String b s) Hk), IH.
    rewrite (includes_unfold k (toLowerCase (String b s))). reflexivity.
Qed.

(** The test of [FeedbackList] is the first test of [getFeedbackType]. *)
Lemma positive_test (text : string) :
  test_alternatives_ci FeedbackList.positive_words text
  = let lowercaseFeedback := toLowerCase text in
    includes "good" lowercaseFeedback
    || includes "great" lowercaseFeedback
    || includes "excellent" lowercaseFeedback
    || includes "correct form" lowercaseFeedback
    || includes "keep it up" lowercaseFeedback.
Proof.
  unfold test_alternatives_ci, FeedbackList.positive_words. cbn [existsb].
  rewrite !includes_ci_lower by reflexivity. cbv zeta.
  destruct (includes "good" _), (includes "great" _), (includes "excellent" _),
    (includes "correct form" _), (includes "keep it up" _); reflexivity.
Qed.

(** X20: the two feedback components agree on what is positive: for every
    text and every severity, [FeedbackList] shows the text with the check
    icon exactly when [FeedbackDisplay] gives it the type ['success'], since
    the regular expression without case of the one matches exactly when one
    of the five [includes] of the other finds its word in the lowered
    text. *)
Theorem positive_feedback_agrees (severity : JsVal) (text : string) :
  (∃ styles, FeedbackList.getSeverityStyles severity (VStr text) = Ok styles
             ∧ FeedbackList.icon styles = FeedbackList.CheckCircle)
  <-> FeedbackDisplay.type (FeedbackDisplay.getFeedbackType text) = "success".
Proof.
  unfold FeedbackList.getSeverityStyles, FeedbackDisplay.getFeedbackType.
  cbn [js_toString]. rewrite positive_test. cbv zeta.
  destruct (includes "good" _ || includes "great" _ || includes "excellent" _
            || includes "correct form" _ || includes "keep it up" _).
  - split; [reflexivity|]. intros _. eexists. split; reflexivity.
  - split.
    + intros (styles & H & Hicon). exfalso.
      destruct (js_or severity (VStr "MEDIUM")); try discriminate H.
      destruct (String.eqb _ "HIGH"); [inversion H; subst; discriminate|].
      destruct (String.eqb _ "MEDIUM"); [inversion H; subst; discriminate|].
      destruct (String.eqb _ "LOW"); inversion H; subst; discriminate.
    + intros H. exfalso.
      destruct (includes "try to" _ || includes "slightly" _ || includes "consider" _);
        [discriminate|].
      destruct (includes "don't" _ || includes "keep your" _ || includes "maintain" _
                || includes "lower" _ || includes "raise" _); discriminate.
Qed.

Lemma positive_feedback_agrees_witness :
  FeedbackDisplay.type (FeedbackDisplay.getFeedbackType "Great depth") = "success".
Proof.
  apply (proj1 (positive_feedback_agrees (VStr "HIGH") "Great depth")).
  eexists. split; reflexivity.
Defined.

Example positive_feedback_examples :
  FeedbackDisplay.type (FeedbackDisplay.getFeedbackType "GOOD depth, don't rush")
  = "success"
  ∧ FeedbackDisplay.type (FeedbackDisplay.getFeedbackType "Try to lower your hips")
    = "warning"
  ∧ FeedbackDisplay.type (FeedbackDisplay.getFeedbackType "Lower your hips") = "error"
  ∧ FeedbackDisplay.type (FeedbackDisplay.getFeedbackType "Rep counted") = "info".
Proof. repeat split; reflexivity. Qed.

(** X21: the severity of [FeedbackList], for a text that is not positive:
    a severity that is missing or falsy is styled as ['MEDIUM']; a string
    severity is styled by its upper-case form, so its case does not matter,
    and never throws; a truthy severity that is not a string throws.  For a
    positive text no severity throws. *)
Theorem severity_styles (severity text : JsVal) :
  (test_alternatives_ci FeedbackList.positive_words (js_toString text) = true ->
   is_thrown (FeedbackList.getSeverityStyles severity text) = false)
  ∧ (test_alternatives_ci FeedbackList.positive_words (js_toString text) = false ->
     (truthy severity = false ->
      FeedbackList.getSeverityStyles severity text
      = FeedbackList.getSeverityStyles (VStr "MEDIUM") text)
     ∧ (∀ s, severity = VStr s ->
          FeedbackList.getSeverityStyles severity text
          = FeedbackList.getSeverityStyles (VStr (toUpperCase s)) text
          ∧ is_thrown (FeedbackList.getSeverityStyles severity text) = false)
     ∧ (truthy severity = true -> (∀ s, severity ≠ VStr s) ->
        is_thrown (FeedbackList.getSeverityStyles severity text) = true)).
Proof.
  unfold FeedbackList.getSeverityStyles. split.
  - intros ->. reflexivity.
  - intros ->. split; [|split].
    + intros Hf. unfold js_or. rewrite Hf. reflexivity.
    + intros s ->. unfold js_or. simpl.
      assert (Hempty : String.eqb (toUpperCase s) "" = String.eqb s "")
        by (destruct s; reflexivity).
      rewrite Hempty.
      destruct (String.eqb s ""); simpl.
      * split; reflexivity.
      * rewrite toUpperCase_idem. split; [reflexivity|].
        destruct (String.eqb _ "HIGH"); [reflexivity|].
        destruct (String.eqb _ "MEDIUM"); [reflexivity|].
        destruct (String.eqb _ "LOW"); reflexivity.
    + intros Ht Hns. unfold js_or. rewrite Ht.
      destruct severity; try reflexivity. exfalso. eapply Hns. reflexivity.
Qed.

Lemma severity_styles_witness :
  FeedbackList.getSeverityStyles (VStr "high") (VStr "Knees caving in")
  = FeedbackList.getSeverityStyles (VStr "HIGH") (VStr "Knees caving in")
  ∧ is_thrown (FeedbackList.getSeverityStyles (VNum 3) (VStr "Knees caving in")) = true
  ∧ is_thrown (FeedbackList.getSeverityStyles (VNum 3) (VStr "Great depth")) = false.
Proof.
  pose proof (severity_styles (VStr "high") (VStr "Knees caving in")) as [_ H1].
  pose proof (severity_styles (VNum 3) (VStr "Knees caving in")) as [_ H2].
  pose proof (severity_styles (VNum 3) (VStr "Great depth")) as [H3 _].
  split; [|split].
  - apply (proj1 (proj2 (H1 eq_refl)) "high" eq_refl).
  - apply (proj2 (proj2 (H2 eq_refl))); [reflexivity | discriminate].
  - apply H3. reflexivity.
Defined.

Lemma filter_outside_nil (l l' : list string) :
  (∀ x, x ∈ l' -> x ∈ l) -> filter (fun x => x ∉ l) l' = [].
Proof.
  induction l' as [|y l' IH]; intros H; [reflexivity|].
  rewrite filter_cons, decide_False.
  - apply IH. intros x Hx. apply H. apply list_elem_of_further, Hx.
  - intros Hy. apply Hy, H, list_elem_of_here.
Qed.

Lemma displayed_step (d : FeedbackDisplay.Display) (e : FeedbackDisplay.Event) :
  (length (FeedbackDisplay.displayedFeedback d) <= 3)%nat ->
  (length (FeedbackDisplay.displayedFeedback (FeedbackDisplay.step d e)) <= 3)%nat.
Proof.
  intros H. destruct e as [stamp feedback| |dismissAfter now]; simpl.
  - unfold FeedbackDisplay.feedbackChanged. case_bool_decide; [|exact H]. simpl.
    destruct (0 <? _)%nat; [|exact H].
    rewrite length_take. lia.
  - rewrite length_map. exact H.
  - destruct (0 <? dismissAfter); [|exact H]. simpl.
    pose proof (length_filter
                  (fun item => now - FeedbackDisplay.timestamp item < dismissAfter)
                  (FeedbackDisplay.displayedFeedback d)).
    lia.
Qed.

(** X22: whatever feedback arrives and whichever timers fire,
    [FeedbackDisplay] never displays more than three items; and the items a
    change of the feedback adds are made of the strings that were not in the
    previous feedback, each marked new, put before the items already
    displayed. *)
Theorem displayed_feedback_bounded (events : list FeedbackDisplay.Event)
    (stamp : nat -> string * Z) (feedback : list string) :
  let d := FeedbackDisplay.run_events FeedbackDisplay.initialDisplay events in
  let d' := FeedbackDisplay.feedbackChanged stamp d feedback in
  (length (FeedbackDisplay.displayedFeedback d) <= 3)%nat
  ∧ (∀ item, item ∈ FeedbackDisplay.newFeedback stamp
                       (FeedbackDisplay.lastFeedback d) feedback ->
       FeedbackDisplay.text item ∈ feedback
       ∧ (FeedbackDisplay.text item ∉ FeedbackDisplay.lastFeedback d)
       ∧ FeedbackDisplay.isNew item = true)
  ∧ (FeedbackDisplay.newFeedback stamp (FeedbackDisplay.lastFeedback d) feedback ≠ [] ->
     FeedbackDisplay.displayedFeedback d'
     = take 3 (FeedbackDisplay.newFeedback stamp (FeedbackDisplay.lastFeedback d) feedback
               ++ FeedbackDisplay.displayedFeedback d)
     ∧ FeedbackDisplay.lastFeedback d' = feedback)
  ∧ (FeedbackDisplay.newFeedback stamp (FeedbackDisplay.lastFeedback d) feedback = [] ->
     FeedbackDisplay.displayedFeedback d' = FeedbackDisplay.displayedFeedback d).
Proof.
  cbv zeta. split; [|split; [|split]].
  - unfold FeedbackDisplay.run_events.
    assert (Hgen : ∀ d, (length (FeedbackDisplay.displayedFeedback d) <= 3)%nat ->
                        (length (FeedbackDisplay.displayedFeedback
                                   (fold_left FeedbackDisplay.step events d)) <= 3)%nat).
    { induction events as [|e events IH]; intros d H; [exact H|].
      simpl. apply IH, displayed_step, H. }
    apply Hgen. simpl. lia.
  - intros item Hin. unfold FeedbackDisplay.newFeedback in Hin.
    apply list_elem_of_lookup in Hin as [k Hk].
    rewrite list_lookup_imap in Hk.
    destruct (filter _ feedback !! k) as [s|] eqn:Hs; [|discriminate].
    simpl in Hk. inversion Hk; subst item; clear Hk. simpl.
    apply list_elem_of_lookup_2 in Hs. apply list_elem_of_filter in Hs as [Hnot Hin].
    auto.
  - intros Hne. unfold FeedbackDisplay.feedbackChanged.
    set (d := FeedbackDisplay.run_events _ _) in *.
    case_bool_decide as Hchanged.
    + simpl. split; [|reflexivity].
      destruct (FeedbackDisplay.newFeedback stamp (FeedbackDisplay.lastFeedback d) feedback)
        eqn:E; [contradiction | reflexivity].
    + exfalso. apply Hne. rewrite Hchanged.
      unfold FeedbackDisplay.newFeedback.
      rewrite filter_outside_nil by auto. reflexivity.
  - intros Hnil. unfold FeedbackDisplay.feedbackChanged.
    case_bool_decide; [|reflexivity]. simpl. rewrite Hnil. reflexivity.
Qed.

Lemma displayed_feedback_bounded_witness :
  FeedbackDisplay.displayedFeedback
    (FeedbackDisplay.feedbackChanged (fun k => ("id", 0))
       (FeedbackDisplay.run_events FeedbackDisplay.initialDisplay
          [FeedbackDisplay.FeedbackChanged (fun k => ("id", 0))
             ["Good form"; "Lower your hips"; "Keep your back straight"]])
       ["Lower your hips"; "Slightly faster"])
  = take 3
      (FeedbackDisplay.newFeedback (fun k => ("id", 0))
         ["Good form"; "Lower your hips"; "Keep your back straight"]
         ["Lower your hips"; "Slightly faster"]
       ++ FeedbackDisplay.displayedFeedback
            (FeedbackDisplay.run_events FeedbackDisplay.initialDisplay
               [FeedbackDisplay.FeedbackChanged (fun k => ("id", 0))
                  ["Good form"; "Lower your hips"; "Keep your back straight"]])).
Proof.
  apply (displayed_feedback_bounded
           [FeedbackDisplay.FeedbackChanged (fun k => ("id", 0))
              ["Good form"; "Lower your hips"; "Keep your back straight"]]
           (fun k => ("id", 0)) ["Lower your hips"; "Slightly faster"]).
  vm_compute. discriminate.
Defined.

(* ===================================================================== *)
(** ** [formatTime], [isActive] and the exercise page                     *)
(* ===================================================================== *)

Lemma padStart0_two_digits (k : Z) :
  0 <= k < 100 ->
  padStart0 2 (pretty k)
  = String (ExerciseCounter.digit (k / 10))
           (String (ExerciseCounter.digit (k mod 10)) EmptyString).
Proof.
  intros Hk.
  assert (Hall : forallb
                   (fun k => String.eqb
                               (padStart0 2 (pretty k))
                               (String (ExerciseCounter.digit (k / 10))
                                  (String (ExerciseCounter.digit (k mod 10))
                                          EmptyString)))
                   (seqZ 0 100) = true) by (vm_compute; reflexivity).
  rewrite forallb_forall in Hall.
  apply String.eqb_eq, Hall. apply list_elem_of_In, elem_of_seqZ. lia.
Qed.

(** X23: for a whole number of seconds from 0 up to 99 minutes 59 seconds,
    [formatTime] gives exactly five characters, two digits of minutes, a
    colon and two digits of seconds, the first of which is at most 5; the
    four digits determine the number of seconds, so two different times
    never show the same text. *)
Theorem formatTime_minutes_seconds (seconds : Z) :
  0 <= seconds < 6000 ->
  ∃ m1 m2 s1 s2 : Z,
    (0 <= m1 <= 9 ∧ 0 <= m2 <= 9 ∧ 0 <= s1 <= 5 ∧ 0 <= s2 <= 9)
    ∧ ExerciseCounter.formatTime seconds
      = String (ExerciseCounter.digit m1)
          (String (ExerciseCounter.digit m2)
             (String ":"
                (String (ExerciseCounter.digit s1)
                   (String (ExerciseCounter.digit s2) EmptyString))))
    ∧ seconds = 60 * (10 * m1 + m2) + 10 * s1 + s2.
Proof.
  intros H.
  exists (seconds / 60 / 10), (seconds / 60 mod 10),
         (seconds mod 60 / 10), (seconds mod 60 mod 10).
  assert (Hm : 0 <= seconds / 60 < 100)
    by (split; [apply Z.div_pos; lia | apply Z.div_lt_upper_bound; lia]).
  assert (Hs : 0 <= seconds mod 60 < 60) by (apply Z.mod_pos_bound; lia).
  split; [|split].
  - repeat split;
      first [ apply Z.div_pos; lia
            | apply Z.mod_pos_bound; lia
            | apply Z.lt_succ_r, Z.div_lt_upper_bound; lia
            | pose proof (Z.mod_pos_bound (seconds / 60) 10); lia
            | pose proof (Z.mod_pos_bound (seconds mod 60) 10); lia ].
  - unfold ExerciseCounter.formatTime.
    rewrite Z.rem_mod_nonneg by lia.
    rewrite (padStart0_two_digits _ Hm).
    rewrite (padStart0_two_digits (seconds mod 60)) by lia.
    reflexivity.
  - pose proof (Z.div_mod seconds 60).
    pose proof (Z.div_mod (seconds / 60) 10).
    pose proof (Z.div_mod (seconds mod 60) 10).
    lia.
Qed.

Lemma formatTime_minutes_seconds_witness :
  ∃ m1 m2 s1 s2 : Z,
    (0 <= m1 <= 9 ∧ 0 <= m2 <= 9 ∧ 0 <= s1 <= 5 ∧ 0 <= s2 <= 9)
    ∧ ExerciseCounter.formatTime 125
      = String (ExerciseCounter.digit m1)
          (String (ExerciseCounter.digit m2)
             (String ":"
                (String (ExerciseCounter.digit s1)
                   (String (ExerciseCounter.digit s2) EmptyString))))
    ∧ 125 = 60 * (10 * m1 + m2) + 10 * s1 + s2.
Proof.
  apply (formatTime_minutes_seconds 125). lia.
Defined.

Example formatTime_examples :
  ExerciseCounter.formatTime 0 = "00:00"
  ∧ ExerciseCounter.formatTime 125 = "02:05"
  ∧ ExerciseCounter.formatTime 5999 = "99:59"
  ∧ ExerciseCounter.formatTime 6000 = "100:00"
  ∧ ExerciseCounter.formatTime (-1) = "-1:-1".
Proof. repeat split; vm_compute; reflexivity. Qed.

(** The paths of two navigation items that both match a path name. *)
Ltac two_paths Ha Hb :=
  first
    [ reflexivity
    | exfalso; apply String.eqb_eq in Ha; subst; vm_compute in Hb; discriminate Hb
    | exfalso; apply String.eqb_eq in Hb; subst; vm_compute in Ha; discriminate Ha
    | exfalso;
      apply startsWith_app in Ha as [? Ha]; apply startsWith_app in Hb as [? Hb];
      rewrite Ha in Hb; vm_compute in Hb; discriminate Hb ].

(** X24: for every path name at most one item of the navigation menu is
    active; the dashboard is active at ['/'] only, and every other item at
    every path that starts with its own. *)
Theorem one_active_item (pathname : string) :
  (∀ a b : string * string,
     a ∈ Sidebar.navItems -> b ∈ Sidebar.navItems ->
     Sidebar.isActive pathname a.2 = true ->
     Sidebar.isActive pathname b.2 = true ->
     a = b)
  ∧ (Sidebar.isActive pathname "/" = true <-> pathname = "/")
  ∧ (∀ (a : string * string) (rest : string),
       a ∈ Sidebar.navItems -> a.2 ≠ "/" ->
       Sidebar.isActive (a.2 +:+ rest) a.2 = true).
Proof.
  split; [|split].
  - intros a b Ha Hb Hactive_a Hactive_b.
    unfold Sidebar.navItems in Ha, Hb.
    repeat (apply elem_of_cons in Ha as [->|Ha]);
      try (apply elem_of_nil in Ha; contradiction);
      repeat (apply elem_of_cons in Hb as [->|Hb]);
      try (apply elem_of_nil in Hb; contradiction);
      simpl in Hactive_a, Hactive_b;
      two_paths Hactive_a Hactive_b.
  - unfold Sidebar.isActive. simpl. apply String.eqb_eq.
  - intros a rest Ha Hroot. unfold Sidebar.navItems in Ha.
    repeat (apply elem_of_cons in Ha as [->|Ha]);
      try (apply elem_of_nil in Ha; contradiction);
      try (simpl in Hroot; contradiction);
      simpl; apply startsWith_app; eexists; reflexivity.
Qed.

Lemma one_active_item_witness :
  Sidebar.isActive "/workout/12" "/workout" = true
  ∧ (Sidebar.isActive "/workout/12" "/" = true <-> "/workout/12" = "/").
Proof.
  split.
  - apply (proj2 (proj2 (one_active_item "")) ("Workout Planner", "/workout") "/12").
    + apply (bool_decide_unpack _). vm_compute. exact I.
    + discriminate.
  - apply (proj1 (proj2 (one_active_item "/workout/12"))).
Defined.

Lemma clamp_input_least (least : Z) (parsed : option Z) :
  least <= ExerciseTracker.clamp_input least parsed.
Proof. unfold ExerciseTracker.clamp_input. lia. Qed.

Lemma tracker_ok_step (t : ExerciseTracker.Tracker) (e : ExerciseTracker.Event) :
  ExerciseTracker.tracker_ok t -> ExerciseTracker.tracker_ok (ExerciseTracker.step t e).
Proof.
  intros (Hr & Hd & Hac & Hsel).
  destruct e; unfold ExerciseTracker.tracker_ok; simpl;
    repeat split;
    try assumption; try apply clamp_input_least; try reflexivity;
    try (intros ex Hex; first [discriminate Hex | congruence | apply Hsel; exact Hex]);
    try apply andb_false_r.
Qed.

(** X25: on the exercise page, whatever is selected, typed into the target
    fields (numbers or not) and answered by the server, in any order: the
    target repetitions stay at least 1 and the target duration at least 5,
    an exercise is never both active and completed, and the timed flag is
    that of the selected exercise.  So the parameters of a start name the
    selected exercise, carry its timed flag, and have exactly one target:
    the duration, at least 5, for a timed exercise, and the repetitions, at
    least 1, otherwise, the other one being [null]. *)
Theorem tracker_invariant (events : list ExerciseTracker.Event) :
  let t := ExerciseTracker.run_events ExerciseTracker.initialTracker events in
  ExerciseTracker.tracker_ok t
  ∧ (ExerciseTracker.selectedExercise t = None -> ExerciseTracker.startParams t = None)
  ∧ (∀ exercise, ExerciseTracker.selectedExercise t = Some exercise ->
       ∃ params : gmap string JsVal,
         ExerciseTracker.startParams t = Some params
         ∧ params !! "exercise" = Some (VStr (ExerciseTracker.id exercise))
         ∧ params !! "is_timed" = Some (VBool (ExerciseTracker.isTimed exercise))
         ∧ if ExerciseTracker.isTimed exercise
           then params !! "target_reps" = Some VNull
                ∧ params !! "target_duration"
                  = Some (VNum (ExerciseTracker.targetDuration t))
                ∧ 5 <= ExerciseTracker.targetDuration t
           else params !! "target_duration" = Some VNull
                ∧ params !! "target_reps" = Some (VNum (ExerciseTracker.targetReps t))
                ∧ 1 <= ExerciseTracker.targetReps t).
Proof.
  cbv zeta.
  assert (Hok : ExerciseTracker.tracker_ok
                  (ExerciseTracker.run_events ExerciseTracker.initialTracker events)).
  { unfold ExerciseTracker.run_events.
    assert (Hgen : ∀ t, ExerciseTracker.tracker_ok t ->
                        ExerciseTracker.tracker_ok (fold_left ExerciseTracker.step events t)).
    { induction events as [|e events IH]; intros t H; [exact H|].
      simpl. apply IH, tracker_ok_step, H. }
    apply Hgen. unfold ExerciseTracker.tracker_ok. simpl.
    repeat split; try lia. intros ex Hex. discriminate Hex. }
  split; [exact Hok|].
  set (t := ExerciseTracker.run_events _ _) in *.
  destruct Hok as (Hr & Hd & _ & Hsel).
  split.
  - intros Hnone. unfold ExerciseTracker.startParams. rewrite Hnone. reflexivity.
  - intros exercise Hex. unfold ExerciseTracker.startParams. rewrite Hex.
    eexists. split; [reflexivity|].
    rewrite (Hsel _ Hex).
    destruct (ExerciseTracker.isTimed exercise); repeat split; assumption.
Qed.

Lemma tracker_invariant_witness :
  ∃ params : gmap string JsVal,
    ExerciseTracker.startParams
      (ExerciseTracker.run_events ExerciseTracker.initialTracker
         [ExerciseTracker.TargetDurationInput None;
          ExerciseTracker.ExerciseSelect
            {| ExerciseTracker.id := "plank"; ExerciseTracker.name := "Plank";
               ExerciseTracker.isTimed := true |}])
    = Some params
    ∧ params !! "target_reps" = Some VNull
    ∧ params !! "target_duration" = Some (VNum 5).
Proof.
  destruct (proj2 (proj2 (tracker_invariant
              [ExerciseTracker.TargetDurationInput None;
               ExerciseTracker.ExerciseSelect
                 {| ExerciseTracker.id := "plank"; ExerciseTracker.name := "Plank";
                    ExerciseTracker.isTimed := true |}]))
              {| ExerciseTracker.id := "plank"; ExerciseTracker.name := "Plank";
                 ExerciseTracker.isTimed := true |} eq_refl)
    as (params & Hp & _ & _ & Hreps & Hdur & _).
  exists params. split; [exact Hp|]. split; [exact Hreps | exact Hdur].
Defined.

(* ===================================================================== *)
(** ** An error response without an object                                *)
(* ===================================================================== *)

(** X26: a response that is not ok and whose body is the JSON value [null]
    makes [fetchApi] throw the [TypeError] of reading [errorData.error]
    instead of the error it builds: the error thrown carries the endpoint
    and the request, and has no [status], no [statusText] and no [data]. *)
Theorem fetchApi_null_error_body (JSON_stringify : JsVal -> string)
    (REACT_APP_API_URL : option string) (net : Network) (n : nat)
    (endpoint : string) (options : gmap string JsVal) (response : Response) :
  net n (request_url REACT_APP_API_URL endpoint)
        (request_config JSON_stringify options) = Ok response ->
  ok response = false ->
  json response = Ok VNull ->
  ∃ e : gmap string JsVal,
    (run net n (fetchApi JSON_stringify REACT_APP_API_URL endpoint options)).2 = Thrown e
    ∧ e !! "name" = Some (VStr "TypeError")
    ∧ e !! "endpoint" = Some (VStr endpoint)
    ∧ e !! "request"
      = Some (VObj (request_details (request_url REACT_APP_API_URL endpoint)
                      (request_config JSON_stringify options)))
    ∧ e !! "status" = None
    ∧ e !! "statusText" = None
    ∧ e !! "data" = None.
Proof.
  intros Hnet Hok Hjson.
  rewrite (run_fetchApi_not_ok _ _ _ _ _ _ _ Hnet Hok).
  eexists. split; [reflexivity|].
  unfold http_error, errorData. rewrite Hjson. simpl.
  rewrite annotate_endpoint, annotate_request, !annotate_other by discriminate.
  repeat split.
Qed.

Lemma fetchApi_null_error_body_witness :
  ∃ e : gmap string JsVal,
    (run (always null_failure) 0
       (fetchApi sample_stringify None "exercise/stop" ∅)).2 = Thrown e
    ∧ e !! "name" = Some (VStr "TypeError")
    ∧ e !! "status" = None.
Proof.
  destruct (fetchApi_null_error_body sample_stringify None (always null_failure) 0
              "exercise/stop" ∅ null_failure eq_refl eq_refl eq_refl)
    as (e & He & Hname & _ & _ & Hstatus & _).
  exists e. split; [exact He|]. split; [exact Hname | exact Hstatus].
Defined.
